(** * Address resolution and directory snapshots of [pants.engine.internals.build_files]

    A shallow embedding of the rules of
    [src/python/pants/engine/internals/build_files.py]: prelude loading,
    address resolution, the per-directory [AddressFamily] builder with its
    ancestor walk, target lookup and the dependency-rule evaluator.

    Python exceptions are an explicit error result; the engine's [Get] and
    [MultiGet] are functions handed to each rule body; the collaborators
    the module imports (parser, file system, synthetic targets, rule engine)
    are the fields of an interface class. *)

From Stdlib Require Import Ascii String.
From stdpp Require Import base option list gmap strings.

Local Open Scope string_scope.
Local Open Scope list_scope.

(** ** Strings *)


(** Python truthiness of a [str]: non-empty. *)
Definition str_truthy (s : string) : bool :=
  match s with
  | EmptyString => false
  | String _ _ => true
  end.

(** Python truthiness of a tuple or a collection: non-empty. *)
Definition truthy {A} (l : list A) : bool :=
  match l with
  | [] => false
  | _ :: _ => true
  end.

Definition nl : string := String (Ascii.ascii_of_nat 10) EmptyString.
Definition indent16 : string := "                ".





(** ** Identifiers *)

(** Modelled from the spec: [Address] (pants/build_graph/address.py is not
    part of the sources). An Identifier is [(directory_path, target_name,
    optional generated_name, optional parameters)]; [is_generated] holds iff
    [generated_name] is set; the owning non-generated identifier is the same
    identifier without its generated name. *)
Record Address := mkAddress {
  spec_path : string;
  target_name : string;
  generated_name : option string;
  parameters : list (string * string)
}.

Global Instance Address_eq_dec : EqDecision Address.
Proof. solve_decision. Defined.

Definition is_generated_target (a : Address) : bool :=
  match generated_name a with
  | Some _ => true
  | None => false
  end.

Definition maybe_convert_to_target_generator (a : Address) : Address :=
  if is_generated_target a
  then mkAddress (spec_path a) (target_name a) None (parameters a)
  else a.

(** Modelled from the spec: [AddressInput], the UnresolvedReference
    [(directory_or_file_component, optional target_component,
    description_of_origin)]. *)
Record AddressInput := mkAddressInput {
  path_component : string;
  target_component : option string;
  description_of_origin : string
}.

(** ** Errors *)

(** Modelled from the spec: [ResolveError] (address.py is not part of the
    sources). It is raised with a message, or built by the class method
    [did_you_mean], whose error carries the offending identifier, the
    provenance text and the list of known valid names of the namespace. *)
Inductive ResolveError :=
| ResolveError_msg (message : string)
| ResolveError_did_you_mean (bad : Address) (origin : string)
    (known_names : list string) (namespace_ : string).

(** An exception raised inside a collaborator: its class and its [str()]. *)
Record Raised := mkRaised {
  exc_class : string;
  exc_str : string
}.

(** What a [try] around code of the workspace sees raised: an instance of
    [Exception], which [except Exception] catches, or an instance of
    [BaseException] only ([SystemExit], [KeyboardInterrupt]), which it
    lets through. *)
Inductive Thrown :=
| ThrownException (e : Raised)
| ThrownBaseException (e : Raised).

Inductive PyError :=
| EResolve (e : ResolveError)
| AssertionError (msg : string)
| Exception (msg : string)
| DuplicateNameError (name : string)
| StopIteration
| KeyError (key : string)
| Propagated (e : Raised).

(** The outcome of a rule body: a value, or a raised exception. *)
Inductive result (A : Type) :=
| Ok (a : A)
| Raise (e : PyError).
Arguments Ok {A} a.
Arguments Raise {A} e.

Global Instance result_ret : MRet result := λ A a, Ok a.
Global Instance result_bind : MBind result := λ A B f m,
  match m with
  | Ok a => f a
  | Raise e => Raise e
  end.
Global Instance result_fmap : FMap result := λ A B f m,
  match m with
  | Ok a => Ok (f a)
  | Raise e => Raise e
  end.

(** A collaborator call that may raise, lifted into a rule body. *)
Definition lift {A} (r : Raised + A) : result A :=
  match r with
  | inl e => Raise (Propagated e)
  | inr a => Ok a
  end.

(** [True] when the outcome is an exception. *)
Definition raises {A} (r : result A) : Prop :=
  match r with
  | Ok _ => False
  | Raise _ => True
  end.

(** ** Address resolution *)

(** The result of globbing one path component: the matching files and
    directories ([pants.engine.fs.Paths]). *)
Record Paths := mkPaths {
  files : list string;
  dirs : list string
}.

(** [MaybeAddress.val : Address | ResolveError]. *)
Record MaybeAddress := mkMaybeAddress {
  val : Address + ResolveError
}.

(** What [maybe_resolve_address] needs from outside this module: the
    globbing engine ([Get(Paths, PathGlobs(globs))]), the two conversions of
    [AddressInput], and [pants.util.strutil.softwrap]. *)
Class AddressCodec := {
  get_paths : list string → Paths;
  file_to_address : AddressInput → Raised + Address;
  dir_to_address : AddressInput → Raised + Address;
  softwrap : string → string
}.

Section address_resolution.
Context `{AddressCodec}.

(** The text of the address as the error message quotes it. *)
Definition unresolved_spec (address_input : AddressInput) : string :=
  let spec := path_component address_input in
  match target_component address_input with
  | Some tc =>
      if str_truthy tc then spec +:+ ":" +:+ tc else spec
  | None => spec
  end.

(** The f-string handed to [softwrap]. *)
Definition unresolved_message (address_input : AddressInput) : string :=
  nl +:+ indent16 +:+ "The file or directory '"
     +:+ path_component address_input
     +:+ "' does not exist on disk in" +:+ nl
     +:+ indent16 +:+ "the workspace, so the address '"
     +:+ unresolved_spec address_input
     +:+ "' from " +:+ description_of_origin address_input +:+ nl
     +:+ indent16 +:+ "cannot be resolved." +:+ nl
     +:+ indent16.

Definition maybe_resolve_address (address_input : AddressInput)
  : result MaybeAddress :=
  (* Determine the type of the path_component of the input. *)
  let '(is_file, is_dir) :=
    if str_truthy (path_component address_input) then
      let paths := get_paths [path_component address_input] in
      (truthy (files paths), truthy (dirs paths))
    else
      (* It is an address in the root directory. *)
      (false, true) in
  if is_file then
    a ← lift (file_to_address address_input);
    mret (mkMaybeAddress (inl a))
  else if is_dir then
    a ← lift (dir_to_address address_input);
    mret (mkMaybeAddress (inl a))
  else
    mret (mkMaybeAddress
            (inr (ResolveError_msg
                    (softwrap (unresolved_message address_input))))).

Definition resolve_address (maybe_address : MaybeAddress) : result Address :=
  match val maybe_address with
  | inr e => Raise (EResolve e)
  | inl a => Ok a
  end.

(** The existence facts the claim speaks of. *)
Definition names_existing_file (address_input : AddressInput) : bool :=
  str_truthy (path_component address_input)
  && truthy (files (get_paths [path_component address_input])).

Definition names_existing_dir (address_input : AddressInput) : bool :=
  str_truthy (path_component address_input)
  && truthy (dirs (get_paths [path_component address_input])).

End address_resolution.

(** ** Declarations, defaults and dependency rules *)

(** Modelled from the spec: [TargetAdaptor], the RawTargetRecord
    [(alias, field_values)] (target_adaptor.py is not part of the sources). *)
Record TargetAdaptor := mkTargetAdaptor {
  type_alias : string;
  kwargs : list (string * string)
}.

Global Instance TargetAdaptor_eq_dec : EqDecision TargetAdaptor.
Proof. solve_decision. Defined.

(** Modelled from the spec: [AddressMap], a DeclarationMap: the origin path
    of one file (or one synthetic source) and its ordered sequence of named
    records (mapper.py is not part of the sources). *)
Record AddressMap := mkAddressMap {
  am_path : string;
  name_to_target_adaptor : list (string * TargetAdaptor)
}.

(** Modelled from the spec: [BuildFileDefaults], the immutable mapping
    [target_alias → (field_name → default_value)] (defaults.py is not part of
    the sources). [BuildFileDefaults({})] is the empty mapping. *)
Abbreviation BuildFileDefaults := (gmap string (gmap string string)).

(** Modelled from the spec: [RuleAction], one of [ALLOW], [DENY(reason)],
    [WARN(reason)] ([DependencyRuleAction] of dep_rules.py). *)
Inductive DependencyRuleAction :=
| ALLOW
| DENY (reason : string)
| WARN (reason : string).

(** A file of the workspace as the engine hands it over. *)
Record FileContent := mkFileContent {
  fc_path : string;
  fc_content : string
}.

Record BuildFileOptions := mkBuildFileOptions {
  patterns : list string;
  ignores : list string;
  prelude_globs : list string
}.

Record GlobalOptions := mkGlobalOptions {
  build_patterns : list string;
  build_ignore : list string;
  build_file_prelude_globs : list string
}.

Definition extract_build_file_options (global_options : GlobalOptions)
  : BuildFileOptions :=
  mkBuildFileOptions (build_patterns global_options)
                     (build_ignore global_options)
                     (build_file_prelude_globs global_options).

(** The opaque values of the collaborators that the rules only pass
    around. *)
Class Opaque := {
  PyValue : Type;
  Parser : Type;
  RegisteredTargetTypes : Type;
  UnionMembership : Type;
  BuildFileDependencyRules : Type;
  RulesParserState : Type;
  (* the method of a rules parser state that freezes it *)
  get_frozen_dependency_rules : RulesParserState → BuildFileDependencyRules
}.

Section data_model.
Context `{Opaque}.

(** [BuildFilePreludeSymbols(FrozenDict(locals))]. *)
Record BuildFilePreludeSymbols := mkBuildFilePreludeSymbols {
  symbols : gmap string PyValue
}.

(** Modelled from the spec: [BuildFileDefaultsParserState], the mutable
    builder that is seeded from an ancestor's frozen Defaults, mutated by
    the directory's own statements while its files are parsed, then
    frozen. *)
Record BuildFileDefaultsParserState := mkDefaultsState {
  dps_path : string;
  dps_defaults : BuildFileDefaults;
  dps_registered_target_types : RegisteredTargetTypes;
  dps_union_membership : UnionMembership
}.

Definition BuildFileDefaultsParserState_create
    (path : string) (defaults : BuildFileDefaults)
    (registered_target_types : RegisteredTargetTypes)
    (union_membership : UnionMembership) : BuildFileDefaultsParserState :=
  mkDefaultsState path defaults registered_target_types union_membership.

Definition get_frozen_defaults (st : BuildFileDefaultsParserState)
  : BuildFileDefaults :=
  dps_defaults st.

(** A rule-engine implementation: the class held by
    [MaybeBuildFileDependencyRulesImplementation]. *)
Record BuildFileDependencyRulesClass := mkRulesClass {
  create_parser_state :
    string → option BuildFileDependencyRules → RulesParserState;
  check_dependency_rules :
    TargetAdaptor → string → option BuildFileDependencyRules →
    TargetAdaptor → string → option BuildFileDependencyRules →
    DependencyRuleAction
}.

Record MaybeBuildFileDependencyRulesImplementation := mkMaybeRulesImpl {
  build_file_dependency_rules_class : option BuildFileDependencyRulesClass
}.

(** The three builders a directory's files are parsed against. In the
    source they are objects mutated in place by [AddressMap.parse]; here
    they are threaded through the calls. *)
Record ParserStates := mkParserStates {
  st_defaults : BuildFileDefaultsParserState;
  st_dependents_rules : option RulesParserState;
  st_dependencies_rules : option RulesParserState
}.

(** Modelled from the spec: [AddressFamily], the DirectorySnapshot: the
    namespace, the merged DeclarationMaps (real and synthetic), the frozen
    Defaults and the two frozen DependencyRuleSets. *)
Record AddressFamily := mkAddressFamily {
  namespace : string;
  address_maps : list AddressMap;
  defaults : BuildFileDefaults;
  dependents_rules : option BuildFileDependencyRules;
  dependencies_rules : option BuildFileDependencyRules
}.

Record AddressFamilyDir := mkAddressFamilyDir {
  afd_path : string
}.

Record OptionalAddressFamily := mkOptionalAddressFamily {
  oaf_path : string;
  address_family : option AddressFamily
}.

Record BuildFileAddress := mkBuildFileAddress {
  bfa_address : Address;
  rel_path : string
}.

Record BuildFileAddressRequest := mkBuildFileAddressRequest {
  bfar_address : Address;
  bfar_description_of_origin : string
}.

Record TargetAdaptorRequest := mkTargetAdaptorRequest {
  tar_address : Address;
  tar_description_of_origin : string
}.

(** *** The snapshot's operations *)

(** The target names of the merged maps, in declaration order. *)
Definition declared (maps : list AddressMap)
  : list (string * (string * TargetAdaptor)) :=
  flat_map (λ m, map (λ nt, (nt.1, (am_path m, nt.2)))
                     (name_to_target_adaptor m)) maps.

(** The first name of [names] that was [seen] before or occurs twice. *)
Fixpoint first_duplicate (seen names : list string) : option string :=
  match names with
  | [] => None
  | n :: rest =>
      if decide (n ∈ seen) then Some n
      else first_duplicate (n :: seen) rest
  end.

(** Modelled from the spec: [AddressFamily.create]: target names must be
    unique across all the merged DeclarationMaps of the directory; a
    collision is a fatal construction error, never an overwrite. *)
Definition AddressFamily_create
    (spec_path : string) (address_maps : list AddressMap)
    (defaults : BuildFileDefaults)
    (dependents_rules dependencies_rules : option BuildFileDependencyRules)
  : result AddressFamily :=
  match first_duplicate [] (declared address_maps).*1 with
  | Some name => Raise (DuplicateNameError name)
  | None =>
      Ok (mkAddressFamily spec_path address_maps defaults
                          dependents_rules dependencies_rules)
  end.

(** Modelled from the spec: [AddressFamily.target_names], the directory's
    known target names. *)
Definition target_names (family : AddressFamily) : list string :=
  (declared (address_maps family)).*1.

(** Modelled from the spec: [AddressFamily.get_target_adaptor], the record
    declared under the identifier's target name, if any. *)
Definition get_target_adaptor (family : AddressFamily) (address : Address)
  : option TargetAdaptor :=
  snd <$> (list_to_map (declared (address_maps family))
             : gmap string (string * TargetAdaptor)) !! target_name address.

(** Modelled from the spec: [AddressFamily.build_file_addresses], the list
    of file-backed records for address-to-file lookup. *)
Definition build_file_addresses (family : AddressFamily)
  : list BuildFileAddress :=
  map (λ d, mkBuildFileAddress (mkAddress (namespace family) d.1 None [])
                               d.2.1)
      (declared (address_maps family)).
End data_model.

(** ** Paths *)

(** [s.split(sep)] on one separator character. *)
Fixpoint split_on (sep : ascii) (s : string) : list string :=
  match s with
  | EmptyString => [EmptyString]
  | String c rest =>
      if decide (c = sep) then EmptyString :: split_on sep rest
      else match split_on sep rest with
           | [] => [String c EmptyString]
           | w :: ws => String c w :: ws
           end
  end.

(** ["/".join(parts)]. *)
Fixpoint join_slash (parts : list string) : string :=
  match parts with
  | [] => ""
  | [p] => p
  | p :: rest => p +:+ "/" +:+ join_slash rest
  end.

Definition slash : ascii := Ascii.ascii_of_nat 47.

Fixpoint leading_slashes (s : string) : nat :=
  match s with
  | String c rest => if decide (c = slash) then S (leading_slashes rest) else 0
  | EmptyString => 0
  end.

(** A [PurePosixPath]: its root and its name parts. Empty and ["."]
    components are dropped; exactly two leading slashes are kept as the
    root ["//"], any other positive number is the root ["/"]. *)
Record PurePath := mkPurePath {
  pp_root : string;
  pp_parts : list string
}.

Definition PurePath_of (s : string) : PurePath :=
  mkPurePath
    (match leading_slashes s with
     | 0 => ""
     | 2 => "//"
     | _ => "/"
     end)
    (filter (λ p, p ≠ "" ∧ p ≠ ".") (split_on slash s)).

(** [str(path)]. *)
Definition PurePath_str (p : PurePath) : string :=
  match pp_root p, pp_parts p with
  | EmptyString, [] => "."
  | root, parts => root +:+ join_slash parts
  end.

(** [path.parents], nearest first: the path with its last [k] parts
    removed, for [k = 1 .. len(parts)]. *)
Definition PurePath_parents (p : PurePath) : list PurePath :=
  map (λ k, mkPurePath (pp_root p) (take k (pp_parts p)))
      (reverse (seq 0 (length (pp_parts p)))).

(** [os.path.join(a, b)] of posixpath. *)
Definition os_path_join (a b : string) : string :=
  if decide (leading_slashes b ≠ 0) then b
  else if decide (a = "" ∨ last (list_ascii_of_string a) = Some slash)
       then a +:+ b
       else a +:+ "/" +:+ b.

(** No character of [s] is the separator. *)
Fixpoint slash_free (s : string) : Prop :=
  match s with
  | EmptyString => True
  | String c rest => c ≠ slash ∧ slash_free rest
  end.

(** A path as [PurePath_of] builds it: one of the three roots, and parts
    without a separator. *)
Definition well_formed (p : PurePath) : Prop :=
  (pp_root p = "" ∨ pp_root p = "/" ∨ pp_root p = "//")
  ∧ Forall slash_free (pp_parts p).

(** ** The collaborators of the directory resolver *)

(** What the rules call outside this module. The engine's intrinsic
    requests are functions of their request value; a call that may raise
    returns [Raised + _]. [AddressMap_parse] returns, with the parsed map,
    the builders as the file's statements left them. The two hooks of a
    synthetic map return the synthetic map as the call left it. *)
Class Collaborators `{Opaque} := {
  (* Get(DigestContents, PathGlobs(globs)) *)
  get_digest_contents : list string → list FileContent;
  (* Get(SyntheticAddressMaps, SyntheticAddressMapsRequest(path)) *)
  get_synthetic_address_maps : string → list AddressMap;
  (* bytes.decode() *)
  decode : string → Raised + string;
  (* AddressMap.parse(filepath, build_file_content, parser, extra_symbols,
                      defaults, dependents_rules, dependencies_rules) *)
  AddressMap_parse :
    string → string → Parser → BuildFilePreludeSymbols → ParserStates →
    Raised + (AddressMap * ParserStates);
  (* synthetic.process_declared_targets(address_map) *)
  process_declared_targets : AddressMap → AddressMap → AddressMap;
  (* synthetic.apply_defaults(frozen_defaults) *)
  apply_defaults : AddressMap → BuildFileDefaults → AddressMap;
  (* {name: getattr(builtins, name) for name in dir(builtins)
                                     if name.endswith("Error")} *)
  builtin_errors : gmap string PyValue;
  (* parser.builtin_symbols *)
  builtin_symbols : Parser → gmap string PyValue;
  (* compile(source, path, "exec") followed by exec(code, globals, locals) *)
  compile_exec :
    string → string → gmap string PyValue → gmap string PyValue →
    Thrown + (gmap string PyValue * gmap string PyValue);
  (* error_on_imports(source, path): the exception it raises, if any *)
  error_on_imports : string → string → option Raised;
  (* str(address) and the repr of a request inside an f-string *)
  Address_str : Address → string;
  TargetAdaptorRequest_repr : TargetAdaptorRequest → string
}.

Global Program Instance Address_countable : Countable Address :=
  inj_countable'
    (λ a, (spec_path a, target_name a, generated_name a, parameters a))
    (λ t, mkAddress t.1.1.1 t.1.1.2 t.1.2 t.2) _.
Next Obligation. by intros []. Qed.

(** Modelled from the spec: [DependenciesRuleAction] (target.py is not part
    of the sources): the actions of one source identifier on its
    dependencies, or [allow_all()], under which every edge is [ALLOW]. *)
Inductive DependenciesRuleAction :=
| allow_all
| mkDependenciesRuleAction
    (dra_address : Address)
    (dependencies_rule : gmap Address DependencyRuleAction).

(** The action a [DependenciesRuleAction] holds for one dependency. *)
Definition action_for (r : DependenciesRuleAction) (dependency : Address)
  : option DependencyRuleAction :=
  match r with
  | allow_all => Some ALLOW
  | mkDependenciesRuleAction _ rules => rules !! dependency
  end.

Record DependenciesRuleActionRequest := mkDependenciesRuleActionRequest {
  drar_address : Address;
  drar_dependencies : list Address;
  drar_description_of_origin : string
}.

(** ** The rules *)

Section rules.
Context `{Collaborators}.

(** *** Preludes *)

(** The body of the [try] of [evaluate_preludes] for one prelude file:
    decode, compile and [exec] against the two dictionaries. What
    [bytes.decode] raises is an instance of [Exception]; the code of the
    prelude can raise anything. *)
Definition exec_prelude_file (file_content : FileContent)
    (globals locals : gmap string PyValue)
  : Thrown + (string * (gmap string PyValue * gmap string PyValue)) :=
  match decode (fc_content file_content) with
  | inl e => inl (ThrownException e)
  | inr file_content_str =>
      match compile_exec file_content_str (fc_path file_content)
                         globals locals with
      | inl e => inl e
      | inr dicts => inr (file_content_str, dicts)
      end
  end.

(** The [for file_content in prelude_digest_contents] loop of
    [evaluate_preludes]; [globals] and [locals] are the two dictionaries
    that [exec] updates. *)
Fixpoint exec_preludes (prelude_digest_contents : list FileContent)
    (globals locals : gmap string PyValue)
  : result (gmap string PyValue * gmap string PyValue) :=
  match prelude_digest_contents with
  | [] => Ok (globals, locals)
  | file_content :: rest =>
      match exec_prelude_file file_content globals locals with
      | inl (ThrownException e) =>
          (* except Exception as e: raise Exception(f"...{e}") *)
          Raise (Exception ("Error parsing prelude file "
                              +:+ fc_path file_content +:+ ": "
                              +:+ exc_str e))
      | inl (ThrownBaseException e) =>
          (* not caught by [except Exception] *)
          Raise (Propagated e)
      | inr (file_content_str, (globals', locals')) =>
          match error_on_imports file_content_str
                                 (fc_path file_content) with
          | Some e => Raise (Propagated e)
          | None => exec_preludes rest globals' locals'
          end
      end
  end.

Definition evaluate_preludes (build_file_options : BuildFileOptions)
    (parser : Parser) : result BuildFilePreludeSymbols :=
  let prelude_digest_contents :=
    get_digest_contents (prelude_globs build_file_options) in
  let globals := builtin_symbols parser ∪ builtin_errors in
  let locals : gmap string PyValue := ∅ in
  '(globals, locals) ← exec_preludes prelude_digest_contents globals locals;
  (* __builtins__ is a dict, so isn't hashable: pop it out. *)
  let locals := delete "__builtins__" locals in
  mret (mkBuildFilePreludeSymbols locals).

(** *** The directory resolver *)

Definition ensure_address_family (request : OptionalAddressFamily)
  : result AddressFamily :=
  match address_family request with
  | None =>
      Raise (EResolve (ResolveError_msg
               ("Directory '" +:+ oaf_path request
                  +:+ "' does not contain any BUILD files.")))
  | Some family => Ok family
  end.

(** What a directory inherits: the three values the ancestor loop of
    [parse_address_family] assigns. *)
Record Inherited := mkInherited {
  inh_defaults : BuildFileDefaults;
  inh_dependents_rules : option BuildFileDependencyRules;
  inh_dependencies_rules : option BuildFileDependencyRules
}.

(** [for maybe_parent in maybe_parents: if ... is not None: ...; break]. *)
Fixpoint inherit (maybe_parents : list OptionalAddressFamily)
    (current : Inherited) : Inherited :=
  match maybe_parents with
  | [] => current
  | maybe_parent :: rest =>
      match address_family maybe_parent with
      | Some family =>
          mkInherited (defaults family) (dependents_rules family)
                      (dependencies_rules family)
      | None => inherit rest current
      end
  end.

(** The directories [parse_address_family] requests for [directory]. *)
Definition parent_requests (directory : AddressFamilyDir)
  : list AddressFamilyDir :=
  map (λ parent_dir, mkAddressFamilyDir (PurePath_str parent_dir))
      (PurePath_parents (PurePath_of (afd_path directory))).

(** The list comprehension over [digest_contents]: each file is decoded
    and parsed against the builders the earlier files left. *)
Fixpoint parse_files (parser : Parser)
    (prelude_symbols : BuildFilePreludeSymbols)
    (digest_contents : list FileContent) (states : ParserStates)
  : result (list AddressMap * ParserStates) :=
  match digest_contents with
  | [] => Ok ([], states)
  | fc :: rest =>
      text ← lift (decode (fc_content fc));
      '(address_map, states) ←
        lift (AddressMap_parse (fc_path fc) text parser prelude_symbols
                               states);
      '(address_maps, states) ←
        parse_files parser prelude_symbols rest states;
      mret (address_map :: address_maps, states)
  end.

(** The inner loop of "Process synthetic targets" for one parsed map. *)
Definition process_synthetic_for (frozen_defaults : BuildFileDefaults)
    (synthetic_address_maps : list AddressMap) (address_map : AddressMap)
  : list AddressMap :=
  map (λ synthetic,
         apply_defaults (process_declared_targets synthetic address_map)
                        frozen_defaults)
      synthetic_address_maps.

(** The two nested loops: the synthetic maps as the calls leave them. *)
Definition process_synthetic (address_maps : list AddressMap)
    (frozen_defaults : BuildFileDefaults)
    (synthetic_address_maps : list AddressMap) : list AddressMap :=
  foldl (process_synthetic_for frozen_defaults) synthetic_address_maps
        address_maps.

(** [parse_address_family] from the creation of the builders on. *)
Definition build_address_family (parser : Parser)
    (prelude_symbols : BuildFilePreludeSymbols)
    (directory : AddressFamilyDir)
    (registered_target_types : RegisteredTargetTypes)
    (union_membership : UnionMembership)
    (implementation : MaybeBuildFileDependencyRulesImplementation)
    (digest_contents : list FileContent)
    (synthetic_address_maps : list AddressMap)
    (inherited : Inherited) : result OptionalAddressFamily :=
  let defaults_parser_state :=
    BuildFileDefaultsParserState_create
      (afd_path directory) (inh_defaults inherited)
      registered_target_types union_membership in
  let '(dependents_rules_parser_state, dependencies_rules_parser_state) :=
    match build_file_dependency_rules_class implementation with
    | Some cls =>
        (Some (create_parser_state cls (afd_path directory)
                                   (inh_dependents_rules inherited)),
         Some (create_parser_state cls (afd_path directory)
                                   (inh_dependencies_rules inherited)))
    | None => (None, None)
    end in
  '(address_maps, states) ←
    parse_files parser prelude_symbols digest_contents
      (mkParserStates defaults_parser_state dependents_rules_parser_state
                      dependencies_rules_parser_state);
  (* Freeze defaults and dependency rules *)
  let frozen_defaults := get_frozen_defaults (st_defaults states) in
  let frozen_dependents_rules :=
    get_frozen_dependency_rules <$> st_dependents_rules states in
  let frozen_dependencies_rules :=
    get_frozen_dependency_rules <$> st_dependencies_rules states in
  (* Process synthetic targets. *)
  let synthetic_address_maps :=
    process_synthetic address_maps frozen_defaults synthetic_address_maps in
  family ← AddressFamily_create
             (afd_path directory)
             (address_maps ++ synthetic_address_maps)
             frozen_defaults frozen_dependents_rules
             frozen_dependencies_rules;
  mret (mkOptionalAddressFamily (afd_path directory) (Some family)).

(** The globs [parse_address_family] reads for a directory. *)
Definition build_file_globs (build_file_options : BuildFileOptions)
    (directory : AddressFamilyDir) : list string :=
  map (os_path_join (afd_path directory)) (patterns build_file_options)
  ++ map (λ p, "!" +:+ p) (ignores build_file_options).

(** [Get] is the engine answering
    [Get(OptionalAddressFamily, AddressFamilyDir(...))]. *)
Definition parse_address_family
    (Get : AddressFamilyDir → result OptionalAddressFamily)
    (parser : Parser) (build_file_options : BuildFileOptions)
    (prelude_symbols : BuildFilePreludeSymbols)
    (directory : AddressFamilyDir)
    (registered_target_types : RegisteredTargetTypes)
    (union_membership : UnionMembership)
    (implementation : MaybeBuildFileDependencyRulesImplementation)
  : result OptionalAddressFamily :=
  let digest_contents :=
    get_digest_contents (build_file_globs build_file_options directory) in
  let synthetic_address_maps :=
    get_synthetic_address_maps (afd_path directory) in
  if negb (truthy digest_contents) && negb (truthy synthetic_address_maps)
  then mret (mkOptionalAddressFamily (afd_path directory) None)
  else
    let initial := mkInherited ∅ None None in
    inherited ←
      match parent_requests directory with
      | [] => mret initial
      | parent_dirs =>
          maybe_parents ← mapM Get parent_dirs;
          mret (inherit maybe_parents initial)
      end;
    build_address_family parser prelude_symbols directory
      registered_target_types union_membership implementation
      digest_contents synthetic_address_maps inherited.
End rules.

Section lookup.
Context `{Collaborators}.

(** *** Target lookup *)

(** In the three rules below [Get] is the engine answering
    [Get(AddressFamily, AddressFamilyDir(...))]. *)

Definition find_build_file
    (Get : AddressFamilyDir → result AddressFamily)
    (request : BuildFileAddressRequest) : result BuildFileAddress :=
  let address := bfar_address request in
  address_family ← Get (mkAddressFamilyDir (spec_path address));
  let owning_address := maybe_convert_to_target_generator address in
  match get_target_adaptor address_family owning_address with
  | None =>
      Raise (EResolve (ResolveError_did_you_mean
                         owning_address
                         (bfar_description_of_origin request)
                         (target_names address_family)
                         (namespace address_family)))
  | Some _ =>
      (* next(bfa for bfa in ... if bfa.address == owning_address) *)
      match List.find (λ build_file_address,
                         bool_decide (bfa_address build_file_address
                                      = owning_address))
                      (build_file_addresses address_family) with
      | None => Raise StopIteration
      | Some bfa =>
          mret (if is_generated_target address
                then mkBuildFileAddress address (rel_path bfa)
                else bfa)
      end
  end.

Definition _get_target_adaptor (address : Address)
    (address_family : AddressFamily) (description_of_origin : string)
  : result TargetAdaptor :=
  match get_target_adaptor address_family address with
  | None =>
      Raise (EResolve (ResolveError_did_you_mean
                         address description_of_origin
                         (target_names address_family)
                         (namespace address_family)))
  | Some target_adaptor => Ok target_adaptor
  end.

Definition find_target_adaptor
    (Get : AddressFamilyDir → result AddressFamily)
    (request : TargetAdaptorRequest) : result TargetAdaptor :=
  let address := tar_address request in
  if is_generated_target address then
    Raise (AssertionError
             ("Generated targets are not defined in BUILD files, and so do not have "
                +:+ "TargetAdaptors: " +:+ TargetAdaptorRequest_repr request))
  else
    address_family ← Get (mkAddressFamilyDir (spec_path address));
    _get_target_adaptor address address_family
                        (tar_description_of_origin request).

(** *** The dependency-rule evaluator *)

(** [{family.namespace: family for family in address_families}]. *)
Definition families_by_namespace (address_families : list AddressFamily)
  : gmap string AddressFamily :=
  foldl (λ families family, <[namespace family := family]> families)
        ∅ address_families.

(** [families[key]]. *)
Definition getitem (families : gmap string AddressFamily) (key : string)
  : result AddressFamily :=
  match families !! key with
  | Some family => Ok family
  | None => Raise (KeyError key)
  end.

(** The body of the loop over [request.dependencies]. *)
Fixpoint check_dependencies (cls : BuildFileDependencyRulesClass)
    (request : DependenciesRuleActionRequest)
    (families : gmap string AddressFamily)
    (origin_family : AddressFamily) (origin_target : TargetAdaptor)
    (dependencies : list Address)
    (dependencies_rule : gmap Address DependencyRuleAction)
  : result (gmap Address DependencyRuleAction) :=
  match dependencies with
  | [] => Ok dependencies_rule
  | dependency_address :: rest =>
      dependency_family ← getitem families (spec_path dependency_address);
      dependency_target ←
        _get_target_adaptor
          (maybe_convert_to_target_generator dependency_address)
          dependency_family
          (drar_description_of_origin request +:+ " on "
             +:+ Address_str dependency_address);
      check_dependencies cls request families origin_family origin_target
        rest
        (<[dependency_address :=
             check_dependency_rules cls
               origin_target (namespace origin_family)
               (dependencies_rules origin_family)
               dependency_target (namespace dependency_family)
               (dependents_rules dependency_family)]> dependencies_rule)
  end.

Definition get_dependencies_rule_action
    (Get : AddressFamilyDir → result AddressFamily)
    (request : DependenciesRuleActionRequest)
    (implementation : MaybeBuildFileDependencyRulesImplementation)
  : result DependenciesRuleAction :=
  match build_file_dependency_rules_class implementation with
  | None => mret allow_all
  | Some cls =>
      (* a set of paths; its iteration order is not specified *)
      let spec_paths :=
        remove_dups (map spec_path (drar_address request
                                      :: drar_dependencies request)) in
      address_families ← mapM Get (map mkAddressFamilyDir spec_paths);
      let families := families_by_namespace address_families in
      origin_family ← getitem families (spec_path (drar_address request));
      origin_target ←
        _get_target_adaptor
          (maybe_convert_to_target_generator (drar_address request))
          origin_family (drar_description_of_origin request);
      dependencies_rule ←
        check_dependencies cls request families origin_family origin_target
                           (drar_dependencies request) ∅;
      mret (mkDependenciesRuleAction (drar_address request)
                                     dependencies_rule)
  end.

(** *** The engine *)

(** The engine answers a request for a directory's
    [OptionalAddressFamily] by running [parse_address_family], whose own
    requests for the ancestors it answers the same way. Every request of
    a call asks for a directory with fewer path parts, so the number of
    nested calls is bounded by the number of parents plus one. *)
Record Session := mkSession {
  s_parser : Parser;
  s_build_file_options : BuildFileOptions;
  s_prelude_symbols : BuildFilePreludeSymbols;
  s_registered_target_types : RegisteredTargetTypes;
  s_union_membership : UnionMembership;
  s_implementation : MaybeBuildFileDependencyRulesImplementation
}.

Fixpoint resolve_directory (depth : nat) (session : Session)
    (directory : AddressFamilyDir) : result OptionalAddressFamily :=
  match depth with
  | 0 => Raise (Exception "engine: nesting bound reached")
  | S depth =>
      parse_address_family
        (resolve_directory depth session)
        (s_parser session) (s_build_file_options session)
        (s_prelude_symbols session) directory
        (s_registered_target_types session) (s_union_membership session)
        (s_implementation session)
  end.

(** [Get(OptionalAddressFamily, AddressFamilyDir(path))]. *)
Definition get_optional_address_family (session : Session)
    (directory : AddressFamilyDir) : result OptionalAddressFamily :=
  resolve_directory
    (S (length (parent_requests directory))) session directory.

(** [Get(AddressFamily, AddressFamilyDir(path))]: the engine chains
    [parse_address_family] and [ensure_address_family]. *)
Definition get_address_family (session : Session)
    (directory : AddressFamilyDir) : result AddressFamily :=
  get_optional_address_family session directory ≫= ensure_address_family.
End lookup.

(** ** The seed in the words of the specification *)

Section seed_specification.
Context `{Collaborators}.

(** What a directory takes over from a snapshot. *)
Definition seed_of (family : AddressFamily) : Inherited :=
  mkInherited (defaults family) (dependents_rules family)
              (dependencies_rules family).

(** The seed when no ancestor qualifies: empty Defaults, no rule sets. *)
Definition empty_seed : Inherited := mkInherited ∅ None None.

(** [family] is the snapshot of the first ancestor, in the order of
    [maybe_parents], whose resolution produced one: the ancestor at
    position [i] has it, and every ancestor before it produced the empty
    marker. *)
Definition nearest_snapshot (maybe_parents : list OptionalAddressFamily)
    (i : nat) (family : AddressFamily) : Prop :=
  (∃ maybe_parent, maybe_parents !! i = Some maybe_parent
                   ∧ address_family maybe_parent = Some family)
  ∧ ∀ j maybe_parent, j < i → maybe_parents !! j = Some maybe_parent →
      address_family maybe_parent = None.

Definition seeded_as_specified (maybe_parents : list OptionalAddressFamily)
    (inherited : Inherited) : Prop :=
  (∃ i family, nearest_snapshot maybe_parents i family
               ∧ inherited = seed_of family)
  ∨ (Forall (λ maybe_parent, address_family maybe_parent = None)
            maybe_parents
     ∧ inherited = empty_seed).

(** The directory has at least one declaration file or synthetic map. *)
Definition has_declarations (build_file_options : BuildFileOptions)
    (directory : AddressFamilyDir) : Prop :=
  get_digest_contents (build_file_globs build_file_options directory) ≠ []
  ∨ get_synthetic_address_maps (afd_path directory) ≠ [].
End seed_specification.

(** ** A small workspace

    A concrete instance of the collaborators, on which the rules can be
    run: a file system of four declaration files, a declaration language of
    two statements, one synthetic source and one prelude. *)
Module Demo.

Definition semicolon : ascii := Ascii.ascii_of_nat 59.
Definition space : ascii := Ascii.ascii_of_nat 32.

#[export] Instance opaque : Opaque := {|
  PyValue := string;
  Parser := unit;
  RegisteredTargetTypes := unit;
  UnionMembership := unit;
  BuildFileDependencyRules := list string;
  RulesParserState := list string;
  get_frozen_dependency_rules := λ st, st
|}.

(** The files of the workspace. [a/b] has no declaration file. *)
Definition workspace : list FileContent := [
  mkFileContent "a/BUILD" "default timeout 10;target lib";
  mkFileContent "a/b/c/BUILD" "target app";
  mkFileContent "dup/BUILD" "target lib";
  mkFileContent "dup/BUILD.extra" "target lib";
  mkFileContent "ok/BUILD" "target lib";
  mkFileContent "ok/BUILD.extra" "target lib2";
  mkFileContent "a/mixed/BUILD" "target lib";
  mkFileContent "a/both/BUILD" "target tool";
  mkFileContent "prelude_ok.py" "x";
  mkFileContent "prelude_bad.py" "fail"
].

Definition directories : list string :=
  ["a"; "a/b"; "a/b/c"; "a/gen"; "a/mixed"; "a/both"; "dup"; "ok"].

(** One statement of a declaration file: [default FIELD VALUE] sets a
    default of the alias [target]; [target NAME] declares a target; any
    other statement fails. *)
Definition statement (path : string) (words : list string)
    (acc : Raised + (list (string * TargetAdaptor) * ParserStates))
  : Raised + (list (string * TargetAdaptor) * ParserStates) :=
  match acc with
  | inl e => inl e
  | inr (targets, states) =>
      let bad := mkRaised "ParseError" ("bad statement in " +:+ path) in
      match words with
      | [keyword; name] =>
          if decide (keyword = "target") then
            inr ((targets ++ [(name, mkTargetAdaptor "target" [])])%list, states)
          else inl bad
      | [keyword; field; value] =>
          if decide (keyword = "default") then
            let st := st_defaults states in
            let updated :=
              <[ "target" :=
                   <[ field := value ]>
                     (default ∅ (dps_defaults st !! "target")) ]>
                (dps_defaults st) in
            inr (targets,
                 mkParserStates
                   (mkDefaultsState (dps_path st) updated
                      (dps_registered_target_types st)
                      (dps_union_membership st))
                   (st_dependents_rules states)
                   (st_dependencies_rules states))
          else inl bad
      | _ => inl bad
      end
  end.

Definition parse (path content : string) (parser : Parser)
    (prelude : BuildFilePreludeSymbols) (states : ParserStates)
  : Raised + (AddressMap * ParserStates) :=
  match foldl (λ acc stmt, statement path (split_on space stmt) acc)
              (inr ([], states)) (split_on semicolon content) with
  | inl e => inl e
  | inr (targets, states) => inr (mkAddressMap path targets, states)
  end.

(** The synthetic source: one synthetic target in each of [a/gen],
    [a/both] and [a/mixed]. *)
Definition synthetic_maps (path : string) : list AddressMap :=
  if decide (path = "a/gen") then
    [mkAddressMap "a/gen/<synthetic>"
                  [("synth", mkTargetAdaptor "target" [])]]
  else if decide (path = "a/both") then
    [mkAddressMap "a/both/<synthetic>"
                  [("synth", mkTargetAdaptor "target" [])]]
  else if decide (path = "a/mixed") then
    [mkAddressMap "a/mixed/<synthetic>"
                  [("lib", mkTargetAdaptor "target" [])]]
  else [].

(** The hook of the synthetic source: every synthetic target takes the
    defaults of its alias as field values. *)
Definition fill_defaults (synthetic : AddressMap)
    (frozen : BuildFileDefaults) : AddressMap :=
  mkAddressMap (am_path synthetic)
    (map (λ nt, (nt.1,
                 mkTargetAdaptor (type_alias nt.2)
                   (map_to_list
                      (default ∅ (frozen !! type_alias nt.2)))))
         (name_to_target_adaptor synthetic)).

#[export] Instance collaborators : Collaborators := {|
  get_digest_contents := λ globs,
    filter (λ fc, fc_path fc ∈ globs) workspace;
  get_synthetic_address_maps := synthetic_maps;
  decode := λ bytes, inr bytes;
  AddressMap_parse := parse;
  process_declared_targets := λ synthetic _, synthetic;
  apply_defaults := fill_defaults;
  builtin_errors := {[ "ValueError" := "<class ValueError>" ]};
  builtin_symbols := λ _, {[ "target" := "<target>" ]};
  compile_exec := λ source path globals locals,
    if decide (source = "fail")
    then inl (ThrownException
                (mkRaised "NameError" "name 'fail' is not defined"))
    else inr (globals, <[ source := "1" ]> locals);
  error_on_imports := λ _ _, None;
  Address_str := λ a, spec_path a +:+ ":" +:+ target_name a;
  TargetAdaptorRequest_repr := λ r,
    "TargetAdaptorRequest(" +:+ spec_path (tar_address r) +:+ ":"
      +:+ target_name (tar_address r) +:+ ")"
|}.

#[export] Instance codec : AddressCodec := {|
  get_paths := λ globs,
    mkPaths (filter (λ p, p ∈ globs) (fc_path <$> workspace))
            (filter (λ p, p ∈ globs) directories);
  file_to_address := λ ai,
    inr (mkAddress (path_component ai)
                   (default "" (target_component ai)) None []);
  dir_to_address := λ ai,
    inr (mkAddress (path_component ai)
                   (default "" (target_component ai)) None []);
  softwrap := λ s, s
|}.

Definition session : Session :=
  mkSession () (mkBuildFileOptions ["BUILD"; "BUILD.extra"] [] [])
            (mkBuildFilePreludeSymbols ∅) () () (mkMaybeRulesImpl None).

Definition dir (path : string) : AddressFamilyDir :=
  mkAddressFamilyDir path.

(** The snapshot of [a], and what the ancestors of [a/b/c] resolve to,
    nearest first. *)
Definition family_a : AddressFamily :=
  mkAddressFamily "a"
    [mkAddressMap "a/BUILD" [("lib", mkTargetAdaptor "target" [])]]
    {[ "target" := {[ "timeout" := "10" ]} ]} None None.

Definition parents_of_a_b_c : list OptionalAddressFamily := [
  mkOptionalAddressFamily "a/b" None;
  mkOptionalAddressFamily "a" (Some family_a);
  mkOptionalAddressFamily "." None
].

(** The defaults a directory's snapshot publishes for the alias
    [target]. *)
Definition published_defaults (path : string)
  : result (option (list (string * string))) :=
  oaf ← get_optional_address_family session (dir path);
  mret ((λ family,
           map_to_list (default ∅ (defaults family !! "target")))
        <$> address_family oaf).

(** The records a directory's snapshot publishes. *)
Definition published_targets (path : string)
  : result (option (list (string * TargetAdaptor))) :=
  oaf ← get_optional_address_family session (dir path);
  mret ((λ family, (λ d, (d.1, d.2.2)) <$> declared (address_maps family))
        <$> address_family oaf).
End Demo.

(** ** The builders of a directory *)

Section builders.
Context `{Collaborators}.

(** The three builders [parse_address_family] creates before it parses the
    files of [directory]: the defaults builder seeded with the inherited
    defaults and, when a rule engine is installed, one rules builder for
    each direction. *)
Definition initial_states (directory : AddressFamilyDir)
    (registered_target_types : RegisteredTargetTypes)
    (union_membership : UnionMembership)
    (implementation : MaybeBuildFileDependencyRulesImplementation)
    (inherited : Inherited) : ParserStates :=
  mkParserStates
    (BuildFileDefaultsParserState_create
       (afd_path directory) (inh_defaults inherited)
       registered_target_types union_membership)
    ((λ cls, create_parser_state cls (afd_path directory)
                                 (inh_dependents_rules inherited))
     <$> build_file_dependency_rules_class implementation)
    ((λ cls, create_parser_state cls (afd_path directory)
                                 (inh_dependencies_rules inherited))
     <$> build_file_dependency_rules_class implementation).

(** The identifiers of a request: its source, then its dependencies. *)
Definition request_addresses (request : DependenciesRuleActionRequest)
  : list Address :=
  drar_address request :: drar_dependencies request.
End builders.

(** ** A workspace with broken files

    A second instance of the collaborators: a directory [x] one of whose
    declaration files has a statement that does not parse, a directory
    [x/y] below it, a prelude that imports a module, a prelude that raises
    [SystemExit], and a rule engine that denies every dependency on a
    target of [ok]. *)
Module Broken.

Definition workspace : list FileContent := [
  mkFileContent "x/BUILD" "target a";
  mkFileContent "x/BUILD.extra" "oops";
  mkFileContent "x/y/BUILD" "target b";
  mkFileContent "fine.py" "y";
  mkFileContent "imp.py" "import os";
  mkFileContent "quit.py" "raise SystemExit(1)"
].

Definition collaborators : @Collaborators Demo.opaque := {|
  get_digest_contents := λ globs,
    filter (λ fc, fc_path fc ∈ globs) workspace;
  get_synthetic_address_maps := λ _, [];
  decode := λ bytes, inr bytes;
  AddressMap_parse := Demo.parse;
  process_declared_targets := λ synthetic _, synthetic;
  apply_defaults := Demo.fill_defaults;
  builtin_errors := ∅;
  builtin_symbols := λ _, ∅;
  compile_exec := λ source path globals locals,
    if decide (source = "raise SystemExit(1)")
    then inl (ThrownBaseException (mkRaised "SystemExit" "1"))
    else inr (globals, <[ source := "1" ]> locals);
  error_on_imports := λ source path,
    if decide (source = "import os")
    then Some (mkRaised "ParseError" ("Import used in " +:+ path))
    else None;
  Address_str := λ a, spec_path a +:+ ":" +:+ target_name a;
  TargetAdaptorRequest_repr := λ r, "TargetAdaptorRequest"
|}.

Definition session : @Session Demo.opaque :=
  @mkSession Demo.opaque
    () (mkBuildFileOptions ["BUILD"; "BUILD.extra"] [] [])
    (@mkBuildFilePreludeSymbols Demo.opaque ∅) () ()
    (@mkMaybeRulesImpl Demo.opaque None).

(** The rule engine: an edge into [ok] is denied, any other is allowed. *)
Definition rules_class : @BuildFileDependencyRulesClass Demo.opaque :=
  @mkRulesClass Demo.opaque
    (λ path seed, default [] seed)
    (λ source source_path dependencies_rules target target_path
       dependents_rules,
       if decide (target_path = "ok") then DENY "ok is private" else ALLOW).

Definition lib_of (path : string) : Address := mkAddress path "lib" None [].

Definition request : DependenciesRuleActionRequest :=
  mkDependenciesRuleActionRequest (lib_of "a") [lib_of "ok"; lib_of "a"]
                                  "tests".

(** A request with a dependency in [a/b], which has no declaration. *)
Definition request_into_empty : DependenciesRuleActionRequest :=
  mkDependenciesRuleActionRequest (lib_of "a") [lib_of "a/b"] "tests".

(** The engine on this workspace. *)
Definition resolve (directory : AddressFamilyDir)
  : result OptionalAddressFamily :=
  @get_optional_address_family Demo.opaque collaborators session directory.

(** The preludes of this workspace. *)
Definition preludes : result BuildFilePreludeSymbols :=
  @evaluate_preludes Demo.opaque collaborators
    (mkBuildFileOptions [] [] ["fine.py"; "imp.py"]) ().

(** The preludes when the session also loads [quit.py], whose code raises
    [SystemExit]. *)
Definition preludes_with_exit : result BuildFilePreludeSymbols :=
  @evaluate_preludes Demo.opaque collaborators
    (mkBuildFileOptions [] [] ["fine.py"; "quit.py"]) ().
End Broken.

(** * Properties *)

(** ** Strings and results *)

Lemma append_cons (x : ascii) (a b : string) :
  String x a +:+ b = String x (a +:+ b).
Proof. reflexivity. Qed.






Lemma mapM_Ok {A B} (f : A → result B) (l : list A) (k : list B) :
  mapM f l = Ok k ↔ Forall2 (λ x y, f x = Ok y) l k.
Proof.
  revert k. induction l as [|x l IH]; intros k; simpl.
  - split; [intros [= <-]; constructor|by inversion 1].
  - split.
    + destruct (f x) as [y|] eqn:Hx; simpl; [|done].
      destruct (mapM f l) as [k'|] eqn:Hl; simpl; [|done].
      intros [= <-]. constructor; [done|by apply IH].
    + inversion 1 as [|? y ? k' Hx Hl]; subst.
      rewrite Hx. simpl. apply IH in Hl. by rewrite Hl.
Qed.

Lemma mapM_Raise {A B} (f : A → result B) (l : list A) (x : A) :
  x ∈ l → raises (f x) → raises (mapM f l).
Proof.
  induction l as [|y l IH]; [by inversion 1|].
  intros Hin Hx. simpl. destruct (f y) as [b|] eqn:Hy; simpl; [|done].
  apply elem_of_cons in Hin as [->|Hin].
  - by rewrite Hy in Hx.
  - specialize (IH Hin Hx). by destruct (mapM f l).
Qed.

(** ** Address resolution *)

Section address_resolution_facts.
Context `{AddressCodec}.



End address_resolution_facts.

(** ** The directory resolver *)

Section resolver_facts.
Context `{Collaborators}.

(** C3. [ensure_address_family] raises the [ResolveError] that says the
    directory does not contain any BUILD files when its input carries no
    snapshot, and returns the snapshot it carries otherwise. *)
Theorem ensure_address_family_escalates
    (path : string) (family : AddressFamily) :
  ensure_address_family (mkOptionalAddressFamily path None)
    = Raise (EResolve (ResolveError_msg
               ("Directory '" +:+ path
                  +:+ "' does not contain any BUILD files.")))
  ∧ ensure_address_family (mkOptionalAddressFamily path (Some family))
    = Ok family
  ∧ ∀ request : OptionalAddressFamily,
      raises (ensure_address_family request)
      ↔ address_family request = None.
Proof.
  split; [done|split; [done|]].
  intros [p [f|]]; simpl; split; done.
Qed.

Lemma build_address_family_publishes parser prelude_symbols directory
    registered_target_types union_membership implementation
    digest_contents synthetic_address_maps inherited oaf :
  build_address_family parser prelude_symbols directory
    registered_target_types union_membership implementation
    digest_contents synthetic_address_maps inherited = Ok oaf →
  is_Some (address_family oaf).
Proof.
  unfold build_address_family.
  destruct (build_file_dependency_rules_class implementation);
    (destruct (parse_files _ _ _ _) as [[maps states]|]; simpl; [|done]);
    (destruct (AddressFamily_create _ _ _ _ _); simpl; [|done]);
    by intros [= <-].
Qed.

(** C2. [parse_address_family] returns the [OptionalAddressFamily] without
    an address family exactly when the directory has no declaration-file
    contents and no synthetic maps; in that case the outcome is the
    returned value [OptionalAddressFamily(directory.path)], not an
    exception, whatever the engine answers for other directories. *)
Theorem parse_address_family_empty_iff
    (Get : AddressFamilyDir → result OptionalAddressFamily)
    (parser : Parser) (build_file_options : BuildFileOptions)
    (prelude_symbols : BuildFilePreludeSymbols)
    (directory : AddressFamilyDir)
    (registered_target_types : RegisteredTargetTypes)
    (union_membership : UnionMembership)
    (implementation : MaybeBuildFileDependencyRulesImplementation) :
  let outcome :=
    parse_address_family Get parser build_file_options prelude_symbols
      directory registered_target_types union_membership implementation in
  let no_declarations :=
    get_digest_contents (build_file_globs build_file_options directory) = []
    ∧ get_synthetic_address_maps (afd_path directory) = [] in
  ((∃ oaf, outcome = Ok oaf ∧ address_family oaf = None) ↔ no_declarations)
  ∧ (outcome = Ok (mkOptionalAddressFamily (afd_path directory) None)
     ↔ no_declarations).
Proof.
  simpl. unfold parse_address_family.
  destruct (get_digest_contents _) as [|fc fcs] eqn:Hd;
    destruct (get_synthetic_address_maps _) as [|s ss] eqn:Hs; simpl.
  { split; split; eauto. }
  all: split; split; try (by intros [? ?]).
  all: try intros (oaf & Hout & Hnone).
  all: try intros Hout.
  all: exfalso.
  all: destruct (match parent_requests directory with
                 | [] => _ | _ => _ end) as [inherited|]; simpl in Hout;
         [|done].
  all: apply build_address_family_publishes in Hout as [f Hf]; simpl in *;
         congruence.
Qed.
End resolver_facts.

(** ** The ancestor walk *)

Section ancestor_walk.
Context `{Collaborators}.

(** The loop with [break] computes the seed the specification words
    describe. *)
Lemma inherit_seeded (maybe_parents : list OptionalAddressFamily) :
  seeded_as_specified maybe_parents (inherit maybe_parents empty_seed).
Proof.
  induction maybe_parents as [|mp rest IH]; simpl.
  - right. by split; [constructor|].
  - destruct (address_family mp) as [family|] eqn:Hmp.
    + left. exists 0, family. split; [split|done].
      * by exists mp.
      * intros j ? Hj. lia.
    + destruct IH as [(i & family & [(mp' & Hi & Hf) Hbefore] & ->)|[Hall ->]].
      * left. exists (S i), family. split; [split|done].
        -- by exists mp'.
        -- intros [|j] mp'' Hj Hlook; simpl in Hlook.
           ++ by injection Hlook as <-.
           ++ apply (Hbefore j); [lia|done].
      * right. split; [by constructor|done].
Qed.

(** The seed is determined by the answers of the ancestors. *)
Lemma seeded_as_specified_unique maybe_parents inherited inherited' :
  seeded_as_specified maybe_parents inherited →
  seeded_as_specified maybe_parents inherited' →
  inherited = inherited'.
Proof.
  intros [(i & f & [(mp & Hi & Hf) Hb] & ->)|[Hall ->]]
         [(i' & f' & [(mp' & Hi' & Hf') Hb'] & ->)|[Hall' ->]]; [|..|done].
  - destruct (Nat.lt_trichotomy i i') as [Hlt|[->|Hlt]].
    + specialize (Hb' i mp Hlt Hi). congruence.
    + congruence.
    + specialize (Hb i' mp' Hlt Hi'). congruence.
  - rewrite Forall_lookup in Hall'. specialize (Hall' i mp Hi). congruence.
  - rewrite Forall_lookup in Hall. specialize (Hall i' mp' Hi'). congruence.
Qed.

Lemma has_declarations_not_empty build_file_options directory :
  has_declarations build_file_options directory →
  negb (truthy (get_digest_contents
                  (build_file_globs build_file_options directory)))
  && negb (truthy (get_synthetic_address_maps (afd_path directory)))
  = false.
Proof.
  intros [Hd|Hs].
  - by destruct (get_digest_contents _).
  - destruct (get_synthetic_address_maps _); [done|].
    by rewrite andb_false_r.
Qed.

(** With declarations and every ancestor answered, the rule continues
    with what the loop over the answers inherits. *)
Lemma parse_address_family_inherits
    Get parser build_file_options prelude_symbols directory
    registered_target_types union_membership implementation maybe_parents :
  has_declarations build_file_options directory →
  Forall2 (λ parent maybe_parent, Get parent = Ok maybe_parent)
          (parent_requests directory) maybe_parents →
  parse_address_family Get parser build_file_options prelude_symbols
    directory registered_target_types union_membership implementation
  = build_address_family parser prelude_symbols directory
      registered_target_types union_membership implementation
      (get_digest_contents (build_file_globs build_file_options directory))
      (get_synthetic_address_maps (afd_path directory))
      (inherit maybe_parents empty_seed).
Proof.
  intros Hdecl Hparents. unfold parse_address_family.
  rewrite (has_declarations_not_empty _ _ Hdecl).
  apply mapM_Ok in Hparents.
  destruct (parent_requests directory) as [|parent parents] eqn:Hreq.
  - simpl in Hparents. by injection Hparents as <-.
  - by rewrite Hparents.
Qed.

(** C1. For a directory with at least one declaration file or synthetic
    map, once the engine has answered for every ancestor (nearest first,
    up to the root), the snapshot is built from the seed of the first
    ancestor whose answer carries a snapshot; ancestors that answered
    with the empty marker are passed over; when no ancestor carries a
    snapshot the seed is the empty Defaults and absent rule sets. *)
Theorem parse_address_family_seed
    (Get : AddressFamilyDir → result OptionalAddressFamily)
    (parser : Parser) (build_file_options : BuildFileOptions)
    (prelude_symbols : BuildFilePreludeSymbols)
    (directory : AddressFamilyDir)
    (registered_target_types : RegisteredTargetTypes)
    (union_membership : UnionMembership)
    (implementation : MaybeBuildFileDependencyRulesImplementation)
    (maybe_parents : list OptionalAddressFamily) :
  has_declarations build_file_options directory →
  Forall2 (λ parent maybe_parent, Get parent = Ok maybe_parent)
          (parent_requests directory) maybe_parents →
  ∃ inherited,
    seeded_as_specified maybe_parents inherited
    ∧ parse_address_family Get parser build_file_options prelude_symbols
        directory registered_target_types union_membership implementation
      = build_address_family parser prelude_symbols directory
          registered_target_types union_membership implementation
          (get_digest_contents (build_file_globs build_file_options
                                                 directory))
          (get_synthetic_address_maps (afd_path directory))
          inherited.
Proof.
  intros Hdecl Hparents.
  exists (inherit maybe_parents empty_seed).
  split; [apply inherit_seeded|].
  by apply parse_address_family_inherits.
Qed.

(** When the engine fails for one ancestor, so does the directory. *)
Lemma parse_address_family_ancestor_failure
    Get parser build_file_options prelude_symbols directory
    registered_target_types union_membership implementation parent :
  has_declarations build_file_options directory →
  parent ∈ parent_requests directory →
  raises (Get parent) →
  raises (parse_address_family Get parser build_file_options
            prelude_symbols directory registered_target_types
            union_membership implementation).
Proof.
  intros Hdecl Hin Hraise. unfold parse_address_family.
  rewrite (has_declarations_not_empty _ _ Hdecl).
  pose proof (mapM_Raise Get _ _ Hin Hraise) as Hm.
  destruct (parent_requests directory) as [|p ps]; [by inversion Hin|].
  by destruct (mapM Get (p :: ps)).
Qed.
End ancestor_walk.

(** ** Target lookup and the rule evaluator *)

Section lookup_facts.
Context `{Collaborators}.

Lemma get_target_adaptor_absent (family : AddressFamily) (address : Address) :
  target_name address ∉ target_names family →
  get_target_adaptor family address = None.
Proof.
  intros Habsent. unfold get_target_adaptor, target_names in *.
  apply not_elem_of_list_to_map_1 in Habsent. by rewrite Habsent.
Qed.

Lemma target_name_of_owner (address : Address) :
  target_name (maybe_convert_to_target_generator address)
  = target_name address.
Proof.
  unfold maybe_convert_to_target_generator.
  by destruct (is_generated_target address).
Qed.

Lemma spec_path_of_owner (address : Address) :
  spec_path (maybe_convert_to_target_generator address) = spec_path address.
Proof.
  unfold maybe_convert_to_target_generator.
  by destruct (is_generated_target address).
Qed.

Lemma owner_is_not_generated (address : Address) :
  is_generated_target (maybe_convert_to_target_generator address) = false.
Proof.
  unfold maybe_convert_to_target_generator.
  by destruct (is_generated_target address) eqn:Hg.
Qed.

Lemma owner_of_owner (address : Address) :
  maybe_convert_to_target_generator
    (maybe_convert_to_target_generator address)
  = maybe_convert_to_target_generator address.
Proof.
  unfold maybe_convert_to_target_generator at 1.
  by rewrite owner_is_not_generated.
Qed.

(** C5. With no rule-engine implementation installed,
    [get_dependencies_rule_action] returns [allow_all()], under which the
    action of every dependency is [ALLOW]; the answer is the same whatever
    the engine would answer for a directory, so no snapshot is
    consulted. *)
Theorem get_dependencies_rule_action_without_implementation
    (Get : AddressFamilyDir → result AddressFamily)
    (request : DependenciesRuleActionRequest) :
  get_dependencies_rule_action Get request (mkMaybeRulesImpl None)
    = Ok allow_all
  ∧ (∀ dependency, action_for allow_all dependency = Some ALLOW)
  ∧ get_dependencies_rule_action Get request (mkMaybeRulesImpl None)
    = get_dependencies_rule_action
        (λ _, Raise (EResolve (ResolveError_msg "not consulted")))
        request (mkMaybeRulesImpl None).
Proof. done. Qed.

(** C6, as amended. When the target name of an identifier is absent from
    the snapshot of its directory, [_get_target_adaptor] and
    [find_build_file] raise the [ResolveError] built by [did_you_mean]
    from the directory's known target names, and so does
    [find_target_adaptor] for an identifier that is not a generated
    target. *)
Theorem lookup_of_absent_name_suggests
    (Get : AddressFamilyDir → result AddressFamily)
    (family : AddressFamily) (address : Address) (origin : string) :
  target_name address ∉ target_names family →
  Get (mkAddressFamilyDir (spec_path address)) = Ok family →
  _get_target_adaptor address family origin
    = Raise (EResolve (ResolveError_did_you_mean
                         address origin
                         (target_names family) (namespace family)))
  ∧ find_build_file Get (mkBuildFileAddressRequest address origin)
    = Raise (EResolve (ResolveError_did_you_mean
                         (maybe_convert_to_target_generator address) origin
                         (target_names family) (namespace family)))
  ∧ (is_generated_target address = false →
     find_target_adaptor Get (mkTargetAdaptorRequest address origin)
     = Raise (EResolve (ResolveError_did_you_mean
                          address origin
                          (target_names family) (namespace family)))).
Proof.
  intros Habsent Hget. split; [|split].
  - unfold _get_target_adaptor. by rewrite get_target_adaptor_absent.
  - unfold find_build_file. simpl. rewrite Hget. simpl.
    rewrite get_target_adaptor_absent; [done|].
    by rewrite target_name_of_owner.
  - intros Hgen. unfold find_target_adaptor. simpl.
    rewrite Hgen, Hget. simpl.
    unfold _get_target_adaptor. by rewrite get_target_adaptor_absent.
Qed.

(** C10. For a request whose address is a generated target,
    [find_target_adaptor] returns no record: it raises the assertion
    error that says generated targets are not defined in BUILD files,
    before any snapshot is asked for. [find_build_file] instead answers
    such an address with the lookup of its owning target generator, the
    address put back on the result. *)
Theorem find_target_adaptor_rejects_generated
    (Get : AddressFamilyDir → result AddressFamily)
    (request : TargetAdaptorRequest) :
  is_generated_target (tar_address request) = true →
  find_target_adaptor Get request
    = Raise (AssertionError
               ("Generated targets are not defined in BUILD files, and so do not have TargetAdaptors: "
                  +:+ TargetAdaptorRequest_repr request))
  ∧ find_build_file Get
      (mkBuildFileAddressRequest (tar_address request)
                                 (tar_description_of_origin request))
    = (λ bfa, mkBuildFileAddress (tar_address request) (rel_path bfa))
      <$> find_build_file Get
            (mkBuildFileAddressRequest
               (maybe_convert_to_target_generator (tar_address request))
               (tar_description_of_origin request)).
Proof.
  intros Hgen. split.
  - unfold find_target_adaptor. by rewrite Hgen.
  - unfold find_build_file. simpl.
    rewrite spec_path_of_owner, owner_of_owner, owner_is_not_generated, Hgen.
    destruct (Get _) as [family|]; simpl; [|done].
    destruct (get_target_adaptor family _); [|done].
    by destruct (List.find _ _).
Qed.
End lookup_facts.

(** ** Preludes *)

Section prelude_facts.
Context `{Collaborators}.

Lemma exec_preludes_app before rest globals locals :
  exec_preludes (before ++ rest)%list globals locals
  = exec_preludes before globals locals
      ≫= λ dicts, exec_preludes rest dicts.1 dicts.2.
Proof.
  revert globals locals.
  induction before as [|fc before IH]; intros globals locals; [done|].
  simpl. destruct (exec_prelude_file fc globals locals)
    as [[e|e]|[text [globals' locals']]]; [done|done|].
  destruct (error_on_imports _ _); [done|]. apply IH.
Qed.

(** C9, as amended. When the evaluation of a prelude file raises an
    instance of [Exception], all the prelude files before it having been
    evaluated, [evaluate_preludes] raises an exception whose message is
    exactly [Error parsing prelude file <path>: <cause>] with the path of
    that file; when it raises an exception that is not an instance of
    [Exception], that exception leaves [evaluate_preludes] as it is. In
    both cases no prelude symbols are returned. *)
Theorem evaluate_preludes_reports_failing_prelude
    (build_file_options : BuildFileOptions) (parser : Parser)
    (before after : list FileContent) (file_content : FileContent)
    (globals locals : gmap string PyValue) (thrown : Thrown) :
  get_digest_contents (prelude_globs build_file_options)
    = (before ++ file_content :: after)%list →
  exec_preludes before (builtin_symbols parser ∪ builtin_errors) ∅
    = Ok (globals, locals) →
  exec_prelude_file file_content globals locals = inl thrown →
  evaluate_preludes build_file_options parser
    = match thrown with
      | ThrownException e =>
          Raise (Exception ("Error parsing prelude file "
                              +:+ fc_path file_content +:+ ": "
                              +:+ exc_str e))
      | ThrownBaseException e => Raise (Propagated e)
      end
  ∧ ∀ prelude_symbols,
      evaluate_preludes build_file_options parser ≠ Ok prelude_symbols.
Proof.
  intros Hfiles Hbefore Hfile.
  assert (evaluate_preludes build_file_options parser
          = match thrown with
            | ThrownException e =>
                Raise (Exception ("Error parsing prelude file "
                                    +:+ fc_path file_content +:+ ": "
                                    +:+ exc_str e))
            | ThrownBaseException e => Raise (Propagated e)
            end) as Hraise.
  { unfold evaluate_preludes.
    rewrite Hfiles, exec_preludes_app, Hbefore. simpl. rewrite Hfile.
    by destruct thrown. }
  split; [done|]. intros prelude_symbols. rewrite Hraise.
  by destruct thrown.
Qed.
End prelude_facts.

(** ** Uniqueness of target names *)

Section uniqueness.
Context `{Opaque}.

Lemma first_duplicate_None (seen names : list string) :
  first_duplicate seen names = None
  ↔ NoDup names ∧ ∀ n, n ∈ names → n ∉ seen.
Proof.
  revert seen. induction names as [|n names IH]; intros seen; simpl.
  - split; [intros _; split; [constructor|]|done].
    intros n Hn. by apply elem_of_nil in Hn.
  - case_decide as Hseen.
    + split; [done|]. intros [_ Hfresh]. destruct (Hfresh n); [left|done].
    + rewrite IH. split.
      * intros [Hnd Hfresh]. split.
        -- constructor; [|done]. intros Hin.
           apply (Hfresh n Hin). left.
        -- intros m [->|Hm]%elem_of_cons; [done|].
           intros Hin. apply (Hfresh m Hm). by right.
      * intros [Hnd Hfresh]. apply NoDup_cons in Hnd as [Hn Hnd].
        split; [done|]. intros m Hm [->|Hin]%elem_of_cons; [done|].
        apply (Hfresh m); [by right|done].
Qed.

Lemma first_duplicate_NoDup (names : list string) :
  first_duplicate [] names = None ↔ NoDup names.
Proof.
  rewrite first_duplicate_None. split; [by intros [? _]|].
  intros Hnd. split; [done|]. intros n _ Hn. by apply elem_of_nil in Hn.
Qed.

Lemma declared_names_app (maps maps' : list AddressMap) :
  (declared (maps ++ maps')).*1 = (declared maps).*1 ++ (declared maps').*1.
Proof. unfold declared. by rewrite flat_map_app, fmap_app. Qed.

Lemma declared_names_perm (maps maps' : list AddressMap) :
  maps' ≡ₚ maps → (declared maps').*1 ≡ₚ (declared maps).*1.
Proof.
  intros Hperm. unfold declared.
  induction Hperm as [|m l l' _ IH|m m' l|l l' l'' _ IH _ IH'];
    simpl; [done|..].
  - by rewrite !fmap_app, IH.
  - rewrite !fmap_app, !(assoc_L (++)). f_equiv. apply Permutation_app_comm.
  - by etrans.
Qed.

Lemma elem_of_declared (maps : list AddressMap) (m : AddressMap)
    (name : string) (t : TargetAdaptor) :
  m ∈ maps → (name, t) ∈ name_to_target_adaptor m →
  (name, (am_path m, t)) ∈ declared maps.
Proof.
  intros Hm Ht. unfold declared. apply list_elem_of_In, in_flat_map.
  exists m. split; [by apply list_elem_of_In|].
  apply list_elem_of_In.
  by apply (list_elem_of_fmap_2
              (λ nt : string * TargetAdaptor, (nt.1, (am_path m, nt.2)))
              _ (name, t)).
Qed.

(** C8. [AddressFamily.create] enforces the uniqueness of target names
    across all the maps of a directory. When a name is declared twice
    (in two maps, file-backed or synthetic), construction raises the
    duplicate-name error for that name, in whatever order the maps are
    given, so nothing is overwritten; when all names are distinct the
    snapshot is built from the maps as given and every declared record is
    found under its name. *)
Theorem AddressFamily_create_unique_names
    (spec_path : string) (maps : list AddressMap)
    (defaults : BuildFileDefaults)
    (dependents_rules dependencies_rules : option BuildFileDependencyRules) :
  (¬ NoDup (declared maps).*1 →
   ∀ maps', maps' ≡ₚ maps →
     ∃ name,
       AddressFamily_create spec_path maps' defaults dependents_rules
                            dependencies_rules
       = Raise (DuplicateNameError name)
       ∧ name ∈ (declared maps).*1)
  ∧ (NoDup (declared maps).*1 →
     ∀ maps', maps' ≡ₚ maps →
       ∃ family,
         AddressFamily_create spec_path maps' defaults dependents_rules
                              dependencies_rules
         = Ok family
         ∧ address_maps family = maps'
         ∧ ∀ m name t address,
             m ∈ maps → (name, t) ∈ name_to_target_adaptor m →
             target_name address = name →
             get_target_adaptor family address = Some t
             ∧ name ∈ target_names family).
Proof.
  split; intros Hnames maps' Hperm;
    pose proof (declared_names_perm _ _ Hperm) as Hnames';
    unfold AddressFamily_create;
    destruct (first_duplicate [] (declared maps').*1) as [name|] eqn:Hdup.
  - exists name. split; [done|].
    rewrite <-Hnames'. clear Hnames Hnames' Hperm.
    assert (∀ seen names, first_duplicate seen names = Some name →
              name ∈ names) as Hin.
    { intros seen names. revert seen.
      induction names as [|n names IH]; intros seen; simpl; [done|].
      case_decide; [intros [= ->]; left|].
      intros Hrest. right. by eapply IH. }
    by eapply Hin.
  - apply first_duplicate_NoDup in Hdup. by rewrite Hnames' in Hdup.
  - assert (first_duplicate [] (declared maps').*1 = None) as Hnone;
      [|congruence].
    apply first_duplicate_NoDup. by rewrite Hnames'.
  - eexists. split; [done|]. split; [done|].
    intros m name t address Hm Ht Hname. simpl.
    assert ((name, (am_path m, t)) ∈ declared maps') as Hdecl.
    { apply elem_of_declared; [by rewrite Hperm|done]. }
    split.
    + unfold get_target_adaptor. simpl. rewrite Hname.
      rewrite (elem_of_list_to_map_1 (declared maps') name (am_path m, t));
        [done|by rewrite Hnames'|done].
    + unfold target_names. simpl.
      by apply (list_elem_of_fmap_2 fst _ _ Hdecl).
Qed.
End uniqueness.

(** ** Synthetic targets *)

Section synthetic_facts.
Context `{Collaborators}.

(** With no parsed map the two nested loops run no iteration. *)
Lemma process_synthetic_no_files frozen_defaults synthetic_address_maps :
  process_synthetic [] frozen_defaults synthetic_address_maps
  = synthetic_address_maps.
Proof. done. Qed.

(** With at least one parsed map, the last call on every synthetic map is
    its [apply_defaults] against the frozen defaults. *)
Lemma process_synthetic_applies_defaults
    address_maps frozen_defaults synthetic_address_maps :
  address_maps ≠ [] →
  Forall (λ synthetic,
            ∃ before, synthetic = apply_defaults before frozen_defaults)
         (process_synthetic address_maps frozen_defaults
                            synthetic_address_maps).
Proof.
  destruct address_maps as [|am ams _] using rev_ind; [done|]. intros _.
  unfold process_synthetic. rewrite foldl_app. simpl.
  unfold process_synthetic_for at 1.
  apply Forall_fmap, Forall_true. intros synthetic. simpl. by eexists.
Qed.

(** What [build_address_family] hands to [AddressFamily.create]. *)
Lemma build_address_family_merges parser prelude_symbols directory
    registered_target_types union_membership implementation
    digest_contents synthetic_address_maps inherited address_maps states :
  parse_files parser prelude_symbols digest_contents
    (mkParserStates
       (BuildFileDefaultsParserState_create
          (afd_path directory) (inh_defaults inherited)
          registered_target_types union_membership)
       ((λ cls, create_parser_state cls (afd_path directory)
                                    (inh_dependents_rules inherited))
        <$> build_file_dependency_rules_class implementation)
       ((λ cls, create_parser_state cls (afd_path directory)
                                    (inh_dependencies_rules inherited))
        <$> build_file_dependency_rules_class implementation))
    = Ok (address_maps, states) →
  build_address_family parser prelude_symbols directory
    registered_target_types union_membership implementation
    digest_contents synthetic_address_maps inherited
  = (λ family, mkOptionalAddressFamily (afd_path directory) (Some family))
    <$> AddressFamily_create
          (afd_path directory)
          (address_maps
             ++ process_synthetic address_maps
                  (get_frozen_defaults (st_defaults states))
                  synthetic_address_maps)
          (get_frozen_defaults (st_defaults states))
          (get_frozen_dependency_rules <$> st_dependents_rules states)
          (get_frozen_dependency_rules <$> st_dependencies_rules states).
Proof.
  intros Hparse. unfold build_address_family.
  destruct (build_file_dependency_rules_class implementation);
    simpl in *; rewrite Hparse; simpl;
    by destruct (AddressFamily_create _ _ _ _ _).
Qed.

(** C7, on the code. In a directory that has synthetic maps and no
    declaration file, [parse_address_family] builds the snapshot from the
    synthetic maps exactly as the synthetic source returned them: the
    loop that calls [apply_defaults] iterates over the parsed files, of
    which there are none, so the hook is not called on any of them. *)
Theorem synthetic_only_directory_skips_apply_defaults
    (Get : AddressFamilyDir → result OptionalAddressFamily)
    (parser : Parser) (build_file_options : BuildFileOptions)
    (prelude_symbols : BuildFilePreludeSymbols)
    (directory : AddressFamilyDir)
    (registered_target_types : RegisteredTargetTypes)
    (union_membership : UnionMembership)
    (implementation : MaybeBuildFileDependencyRulesImplementation)
    (maybe_parents : list OptionalAddressFamily) :
  get_digest_contents (build_file_globs build_file_options directory) = [] →
  get_synthetic_address_maps (afd_path directory) ≠ [] →
  Forall2 (λ parent maybe_parent, Get parent = Ok maybe_parent)
          (parent_requests directory) maybe_parents →
  let inherited := inherit maybe_parents empty_seed in
  parse_address_family Get parser build_file_options prelude_symbols
    directory registered_target_types union_membership implementation
  = (λ family, mkOptionalAddressFamily (afd_path directory) (Some family))
    <$> AddressFamily_create
          (afd_path directory)
          (get_synthetic_address_maps (afd_path directory))
          (inh_defaults inherited)
          ((λ cls, get_frozen_dependency_rules
                     (create_parser_state cls (afd_path directory)
                        (inh_dependents_rules inherited)))
           <$> build_file_dependency_rules_class implementation)
          ((λ cls, get_frozen_dependency_rules
                     (create_parser_state cls (afd_path directory)
                        (inh_dependencies_rules inherited)))
           <$> build_file_dependency_rules_class implementation).
Proof.
  intros Hfiles Hsynthetic Hparents inherited.
  rewrite (parse_address_family_inherits _ _ _ _ _ _ _ _ maybe_parents);
    [|by right|done].
  fold inherited. rewrite Hfiles.
  erewrite build_address_family_merges; [|done].
  simpl. by destruct (build_file_dependency_rules_class implementation).
Qed.
End synthetic_facts.

(** ** Paths and the nesting of engine requests *)

Lemma split_on_cons (sep c : ascii) (s : string) :
  split_on sep (String c s)
  = if decide (c = sep) then EmptyString :: split_on sep s
    else match split_on sep s with
         | [] => [String c EmptyString]
         | w :: ws => String c w :: ws
         end.
Proof. reflexivity. Qed.

Lemma split_on_not_nil (sep : ascii) (s : string) : split_on sep s ≠ [].
Proof.
  induction s as [|c s IH]; [done|]. rewrite split_on_cons.
  case_decide; [done|]. by destruct (split_on sep s).
Qed.

Lemma split_on_slash_free (s : string) : Forall slash_free (split_on slash s).
Proof.
  induction s as [|c s IH].
  - by repeat constructor.
  - rewrite split_on_cons. case_decide as Hc.
    + by constructor.
    + destruct (split_on slash s) as [|w ws]; [by repeat constructor|].
      apply Forall_cons in IH as [Hw Hws]. by constructor.
Qed.

Lemma split_on_free (p : string) : slash_free p → split_on slash p = [p].
Proof.
  induction p as [|c p IH]; [done|]. intros [Hc Hp].
  rewrite split_on_cons, decide_False by done. by rewrite IH.
Qed.

Lemma split_on_free_app (p s : string) :
  slash_free p →
  split_on slash (p +:+ String slash s) = p :: split_on slash s.
Proof.
  induction p as [|c p IH]; intros Hp.
  - change ("" +:+ String slash s) with (String slash s).
    by rewrite split_on_cons, decide_True.
  - destruct Hp as [Hc Hp].
    rewrite append_cons, split_on_cons, decide_False by done.
    by rewrite IH.
Qed.

Lemma split_on_join (parts : list string) :
  Forall slash_free parts → parts ≠ [] →
  split_on slash (join_slash parts) = parts.
Proof.
  induction parts as [|p parts IH]; [done|]. intros Hfree _.
  apply Forall_cons in Hfree as [Hp Hparts].
  destruct parts as [|q parts].
  - by apply split_on_free.
  - change (join_slash (p :: q :: parts))
      with (p +:+ String slash (join_slash (q :: parts))).
    rewrite split_on_free_app by done. by rewrite IH.
Qed.

Lemma PurePath_of_well_formed (s : string) : well_formed (PurePath_of s).
Proof.
  split; simpl.
  - destruct (leading_slashes s) as [|[|[|n]]]; auto.
  - apply Forall_forall. intros part [_ Hpart]%list_elem_of_filter.
    pose proof (split_on_slash_free s) as Hfree.
    rewrite Forall_forall in Hfree. by apply Hfree.
Qed.

Lemma PurePath_str_cons (root q : string) (parts : list string) :
  PurePath_str (mkPurePath root (q :: parts))
  = root +:+ join_slash (q :: parts).
Proof. by destruct root. Qed.

(** Reading back the text of a path yields no more parts than it had. *)
Lemma PurePath_of_str_parts (p : PurePath) :
  well_formed p →
  (length (pp_parts (PurePath_of (PurePath_str p)))
   ≤ length (pp_parts p))%nat.
Proof.
  destruct p as [root parts]. intros [Hroot Hfree]; simpl in *.
  assert (∀ l : list string,
            (length (filter (λ p : string, p ≠ "" ∧ p ≠ ".") l)
             ≤ length l)%nat)
    as Hfilter by (intros l; apply length_filter).
  destruct parts as [|q parts].
  - by destruct Hroot as [->|[->| ->]].
  - rewrite PurePath_str_cons.
    assert (split_on slash (join_slash (q :: parts)) = q :: parts) as Hsplit
      by (by apply split_on_join).
    unfold PurePath_of. cbn [pp_parts].
    destruct Hroot as [->|[->| ->]].
    + change ("" +:+ join_slash (q :: parts)) with (join_slash (q :: parts)).
      rewrite Hsplit. apply Hfilter.
    + change ("/" +:+ join_slash (q :: parts))
        with (String slash (join_slash (q :: parts))).
      rewrite split_on_cons, decide_True by done. rewrite Hsplit.
      rewrite filter_cons_False by (intros [? _]; done). apply Hfilter.
    + change ("//" +:+ join_slash (q :: parts))
        with (String slash (String slash (join_slash (q :: parts)))).
      rewrite !split_on_cons, !decide_True by done. rewrite Hsplit.
      rewrite !filter_cons_False by (intros [? _]; done). apply Hfilter.
Qed.

Section engine_facts.
Context `{Collaborators}.

(** Every directory a call requests has fewer parents than the directory
    of the call. *)
Lemma parent_requests_shrink (directory parent : AddressFamilyDir) :
  parent ∈ parent_requests directory →
  (length (parent_requests parent)
   < length (parent_requests directory))%nat.
Proof.
  unfold parent_requests, PurePath_parents. rewrite !length_fmap.
  rewrite !length_reverse, !length_seq.
  pose proof (PurePath_of_well_formed (afd_path directory)) as Hwf.
  destruct (PurePath_of (afd_path directory)) as [root parts].
  destruct Hwf as [Hroot Hfree]. simpl in *.
  intros (pp & -> & (k & -> & Hk)%list_elem_of_fmap)%list_elem_of_fmap.
  apply elem_of_reverse, elem_of_seq in Hk. simpl.
  eapply Nat.le_lt_trans; [apply PurePath_of_str_parts|].
  - split; simpl; [done|]. by apply Forall_take.
  - simpl. rewrite length_take. lia.
Qed.

Lemma mapM_ext_in {A B} (f g : A → result B) (l : list A) :
  (∀ x, x ∈ l → f x = g x) → mapM f l = mapM g l.
Proof.
  induction l as [|x l IH]; [done|]. intros Hext. simpl.
  rewrite (Hext x) by left.
  rewrite IH; [done|]. intros y Hy. apply Hext. by right.
Qed.

(** The rule reads the engine only at the parents of its directory. *)
Lemma parse_address_family_ext Get Get' parser build_file_options
    prelude_symbols directory registered_target_types union_membership
    implementation :
  (∀ parent, parent ∈ parent_requests directory →
             Get parent = Get' parent) →
  parse_address_family Get parser build_file_options prelude_symbols
    directory registered_target_types union_membership implementation
  = parse_address_family Get' parser build_file_options prelude_symbols
      directory registered_target_types union_membership implementation.
Proof.
  intros Hext. unfold parse_address_family.
  destruct (negb _ && negb _); [done|].
  destruct (parent_requests directory) as [|p ps] eqn:Hreq; [done|].
  by rewrite (mapM_ext_in Get Get' (p :: ps)).
Qed.

(** The nesting bound of [get_optional_address_family] is enough: a
    larger bound gives the same outcome. *)
Theorem resolve_directory_depth (session : Session) (depth : nat)
    (directory : AddressFamilyDir) :
  (length (parent_requests directory) < depth)%nat →
  resolve_directory depth session directory
  = get_optional_address_family session directory.
Proof.
  unfold get_optional_address_family.
  revert directory.
  induction depth as [depth IH] using lt_wf_ind. intros directory Hdepth.
  destruct depth as [|depth]; [lia|]. simpl.
  apply parse_address_family_ext. intros parent Hparent.
  pose proof (parent_requests_shrink _ _ Hparent) as Hshrink.
  rewrite (IH depth) by lia.
  symmetry. apply IH; lia.
Qed.

(** The engine's answer for a directory is the rule run against the
    engine's answers for its parents. *)
Corollary get_optional_address_family_unfold (session : Session)
    (directory : AddressFamilyDir) :
  get_optional_address_family session directory
  = parse_address_family
      (get_optional_address_family session)
      (s_parser session) (s_build_file_options session)
      (s_prelude_symbols session) directory
      (s_registered_target_types session) (s_union_membership session)
      (s_implementation session).
Proof.
  unfold get_optional_address_family at 1. simpl.
  apply parse_address_family_ext. intros parent Hparent.
  apply resolve_directory_depth.
  by apply parent_requests_shrink.
Qed.
End engine_facts.

(** ** Further properties of address resolution *)

Section address_resolution_more.
Context `{AddressCodec}.

(** X1. [maybe_resolve_address] never raises a [ResolveError]: an
    unresolvable reference is a returned value. The only exceptions that
    leave the rule are those of [file_to_address] and [dir_to_address]. *)
Theorem maybe_resolve_address_returns_errors (address_input : AddressInput) :
  (∀ e : ResolveError,
     maybe_resolve_address address_input ≠ Raise (EResolve e))
  ∧ ∀ err,
      maybe_resolve_address address_input = Raise err →
      ∃ r, err = Propagated r
           ∧ (file_to_address address_input = inl r
              ∨ dir_to_address address_input = inl r).
Proof.
  unfold maybe_resolve_address.
  destruct (if str_truthy (path_component address_input) then _ else _)
    as [[|] [|]];
    destruct (file_to_address address_input) as [rf|af];
    destruct (dir_to_address address_input) as [rd|ad]; simpl;
    (split; [intros e; discriminate|]);
    intros err Herr; try discriminate; injection Herr as <-; eauto.
Qed.

(** X2. [resolve_address] raises exactly the error its input holds and
    returns exactly the address it holds; chained after
    [maybe_resolve_address], a reference to a path that is neither an
    existing file nor an existing directory raises the [ResolveError] with
    the soft-wrapped message, and any other reference gives what the
    conversion of the input gives. *)
Theorem resolve_address_after_maybe_resolve_address
    (address_input : AddressInput) :
  (∀ maybe_address a,
     resolve_address maybe_address = Ok a ↔ val maybe_address = inl a)
  ∧ (∀ maybe_address err,
       resolve_address maybe_address = Raise err
       ↔ ∃ e, val maybe_address = inr e ∧ err = EResolve e)
  ∧ maybe_resolve_address address_input ≫= resolve_address
    = (if names_existing_file address_input then
         lift (file_to_address address_input)
       else if names_existing_dir address_input
               || bool_decide (path_component address_input = "") then
         lift (dir_to_address address_input)
       else
         Raise (EResolve (ResolveError_msg
                            (softwrap (unresolved_message address_input))))).
Proof.
  split; [|split].
  - intros [[a'|e]] a; unfold resolve_address; simpl;
      split; intros Heq; congruence.
  - intros [[a'|e]] err; unfold resolve_address; simpl; split.
    + discriminate.
    + intros (e & Heq & _). discriminate.
    + intros [= <-]. by exists e.
    + intros (e' & [= <-] & ->). done.
  - unfold maybe_resolve_address, names_existing_file, names_existing_dir.
    destruct (path_component address_input) as [|c p]; simpl.
    + by destruct (dir_to_address address_input).
    + destruct (truthy (files _)); simpl.
      * by destruct (file_to_address address_input).
      * destruct (truthy (dirs _)); simpl; [|done].
        by destruct (dir_to_address address_input).
Qed.
End address_resolution_more.

(** ** Further properties of the preludes and the directory resolver *)

Section rules_more.
Context `{Collaborators}.

(** X3. The symbols [evaluate_preludes] returns never include
    [__builtins__], whatever the prelude files left in their locals. *)
Theorem evaluate_preludes_hides_builtins
    (build_file_options : BuildFileOptions) (parser : Parser)
    (prelude_symbols : BuildFilePreludeSymbols) :
  evaluate_preludes build_file_options parser = Ok prelude_symbols →
  symbols prelude_symbols !! "__builtins__" = None.
Proof.
  unfold evaluate_preludes.
  destruct (exec_preludes _ _ _) as [[globals locals]|]; simpl; [|done].
  intros [= <-]. simpl. apply lookup_delete_eq.
Qed.

(** X4. An import found by [error_on_imports] in a prelude that compiled
    and ran is raised as it is: the check stands after the [try], so its
    exception is not wrapped into [Error parsing prelude file]. *)
Theorem evaluate_preludes_import_error
    (build_file_options : BuildFileOptions) (parser : Parser)
    (before after : list FileContent) (file_content : FileContent)
    (globals locals : gmap string PyValue) (file_content_str : string)
    (dicts : gmap string PyValue * gmap string PyValue) (e : Raised) :
  get_digest_contents (prelude_globs build_file_options)
    = before ++ file_content :: after →
  exec_preludes before (builtin_symbols parser ∪ builtin_errors) ∅
    = Ok (globals, locals) →
  exec_prelude_file file_content globals locals
    = inr (file_content_str, dicts) →
  error_on_imports file_content_str (fc_path file_content) = Some e →
  evaluate_preludes build_file_options parser = Raise (Propagated e).
Proof.
  intros Hfiles Hbefore Hfile Himport. unfold evaluate_preludes.
  rewrite Hfiles, exec_preludes_app, Hbefore. simpl.
  rewrite Hfile. destruct dicts as [globals' locals'].
  by rewrite Himport.
Qed.

Lemma parse_files_app parser prelude_symbols before rest states :
  parse_files parser prelude_symbols (before ++ rest) states
  = parse_files parser prelude_symbols before states
      ≫= λ parsed,
           parse_files parser prelude_symbols rest parsed.2
             ≫= λ parsed', mret (parsed.1 ++ parsed'.1, parsed'.2).
Proof.
  revert states. induction before as [|fc before IH]; intros states; simpl.
  - by destruct (parse_files parser prelude_symbols rest states) as [[? ?]|].
  - destruct (decode (fc_content fc)) as [e|text]; simpl; [done|].
    destruct (AddressMap_parse _ _ _ _ _) as [e|[am states']]; simpl; [done|].
    rewrite IH.
    destruct (parse_files parser prelude_symbols before states')
      as [[maps states'']|]; simpl; [|done].
    by destruct (parse_files parser prelude_symbols rest states'')
      as [[maps' states''']|].
Qed.

Lemma build_address_family_parse_failure parser prelude_symbols directory
    registered_target_types union_membership implementation
    digest_contents synthetic_address_maps inherited err :
  parse_files parser prelude_symbols digest_contents
    (initial_states directory registered_target_types union_membership
                    implementation inherited)
    = Raise err →
  build_address_family parser prelude_symbols directory
    registered_target_types union_membership implementation
    digest_contents synthetic_address_maps inherited = Raise err.
Proof.
  unfold build_address_family, initial_states.
  destruct (build_file_dependency_rules_class implementation);
    simpl; by intros ->.
Qed.

(** X5. Building a snapshot is atomic in the files of the directory: when
    the files before one parse and that one fails to decode or to parse,
    [parse_address_family], from the creation of the builders on, raises
    that exception; the maps already parsed and the files after it play no
    part, and no snapshot is published. *)
Theorem build_address_family_atomic_failure
    (parser : Parser) (prelude_symbols : BuildFilePreludeSymbols)
    (directory : AddressFamilyDir)
    (registered_target_types : RegisteredTargetTypes)
    (union_membership : UnionMembership)
    (implementation : MaybeBuildFileDependencyRulesImplementation)
    (before after : list FileContent) (fc : FileContent)
    (synthetic_address_maps : list AddressMap) (inherited : Inherited)
    (address_maps : list AddressMap) (states : ParserStates) (e : Raised) :
  parse_files parser prelude_symbols before
    (initial_states directory registered_target_types union_membership
                    implementation inherited)
    = Ok (address_maps, states) →
  (decode (fc_content fc) = inl e
   ∨ ∃ text, decode (fc_content fc) = inr text
             ∧ AddressMap_parse (fc_path fc) text parser prelude_symbols
                                states = inl e) →
  build_address_family parser prelude_symbols directory
    registered_target_types union_membership implementation
    (before ++ fc :: after) synthetic_address_maps inherited
  = Raise (Propagated e).
Proof.
  intros Hbefore Hfc. apply build_address_family_parse_failure.
  rewrite parse_files_app, Hbefore. simpl.
  destruct Hfc as [->|(text & -> & Hparse)]; simpl; [done|].
  by rewrite Hparse.
Qed.

(** X10. On success [parse_files] gives one address map for each
    declaration file, and with no file it gives no map and leaves the
    builders as they were. *)
Theorem parse_files_one_map_per_file
    (parser : Parser) (prelude_symbols : BuildFilePreludeSymbols)
    (digest_contents : list FileContent) (states states' : ParserStates)
    (address_maps : list AddressMap) :
  parse_files parser prelude_symbols digest_contents states
    = Ok (address_maps, states') →
  length address_maps = length digest_contents
  ∧ (digest_contents = [] → states' = states).
Proof.
  revert states address_maps.
  induction digest_contents as [|fc rest IH]; intros states address_maps;
    simpl.
  - by intros [= <- <-].
  - destruct (decode (fc_content fc)) as [e|text]; simpl; [done|].
    destruct (AddressMap_parse _ _ _ _ _) as [e|[am states1]]; simpl;
      [done|].
    destruct (parse_files parser prelude_symbols rest states1)
      as [[maps states2]|] eqn:Hrest; simpl; [|done].
    intros [= <- <-]. destruct (IH _ _ Hrest) as [Hlen _].
    simpl. by rewrite Hlen.
Qed.

Lemma AddressFamily_create_Ok spec_path maps defaults dependents_rules
    dependencies_rules family :
  AddressFamily_create spec_path maps defaults dependents_rules
                       dependencies_rules = Ok family →
  family = mkAddressFamily spec_path maps defaults dependents_rules
                           dependencies_rules.
Proof.
  unfold AddressFamily_create.
  destruct (first_duplicate _ _); [done|]. by intros [= <-].
Qed.

Lemma parse_files_initial_states parser prelude_symbols directory
    registered_target_types union_membership implementation
    digest_contents synthetic_address_maps inherited oaf :
  build_address_family parser prelude_symbols directory
    registered_target_types union_membership implementation
    digest_contents synthetic_address_maps inherited = Ok oaf →
  ∃ address_maps states,
    parse_files parser prelude_symbols digest_contents
      (initial_states directory registered_target_types union_membership
                      implementation inherited)
    = Ok (address_maps, states).
Proof.
  unfold build_address_family, initial_states.
  destruct (build_file_dependency_rules_class implementation); simpl;
    (destruct (parse_files _ _ _ _) as [[maps states]|]; [|done]);
    intros _; by eexists _, _.
Qed.

(** What a successful [build_address_family] publishes. *)
Lemma build_address_family_Ok parser prelude_symbols directory
    registered_target_types union_membership implementation
    digest_contents synthetic_address_maps inherited oaf :
  build_address_family parser prelude_symbols directory
    registered_target_types union_membership implementation
    digest_contents synthetic_address_maps inherited = Ok oaf →
  ∃ address_maps states,
    parse_files parser prelude_symbols digest_contents
      (initial_states directory registered_target_types union_membership
                      implementation inherited)
    = Ok (address_maps, states)
    ∧ oaf = mkOptionalAddressFamily (afd_path directory)
              (Some (mkAddressFamily
                       (afd_path directory)
                       (address_maps
                          ++ process_synthetic address_maps
                               (get_frozen_defaults (st_defaults states))
                               synthetic_address_maps)
                       (get_frozen_defaults (st_defaults states))
                       (get_frozen_dependency_rules
                          <$> st_dependents_rules states)
                       (get_frozen_dependency_rules
                          <$> st_dependencies_rules states))).
Proof.
  intros Hbuild.
  destruct (parse_files_initial_states _ _ _ _ _ _ _ _ _ _ Hbuild)
    as (address_maps & states & Hparse).
  exists address_maps, states. split; [done|].
  rewrite (build_address_family_merges _ _ _ _ _ _ _ _ _ _ _ Hparse)
    in Hbuild.
  destruct (AddressFamily_create _ _ _ _ _) as [family|] eqn:Hcreate;
    simpl in Hbuild; [|done].
  injection Hbuild as <-. by rewrite (AddressFamily_create_Ok _ _ _ _ _ _ Hcreate).
Qed.

(** The snapshot a directory publishes is filed under the directory. *)
Lemma parse_address_family_namespace Get parser build_file_options
    prelude_symbols directory registered_target_types union_membership
    implementation oaf :
  parse_address_family Get parser build_file_options prelude_symbols
    directory registered_target_types union_membership implementation
  = Ok oaf →
  oaf_path oaf = afd_path directory
  ∧ ∀ family, address_family oaf = Some family →
      namespace family = afd_path directory.
Proof.
  unfold parse_address_family.
  destruct (negb _ && negb _).
  - intros [= <-]. simpl. split; [done|]. by intros family.
  - destruct (match parent_requests directory with
              | [] => _ | _ => _ end) as [inherited|]; simpl; [|done].
    intros (maps & states & _ & ->)%build_address_family_Ok. simpl.
    split; [done|]. by intros family [= <-].
Qed.

(** X8. Whatever [parse_address_family] returns carries the path of the
    directory it was asked for; and for a directory other than [.], the
    name under which the root is asked for, a snapshot it publishes has
    that path as its namespace. *)
Theorem parse_address_family_answers_for_directory
    (Get : AddressFamilyDir → result OptionalAddressFamily)
    (parser : Parser) (build_file_options : BuildFileOptions)
    (prelude_symbols : BuildFilePreludeSymbols)
    (directory : AddressFamilyDir)
    (registered_target_types : RegisteredTargetTypes)
    (union_membership : UnionMembership)
    (implementation : MaybeBuildFileDependencyRulesImplementation)
    (oaf : OptionalAddressFamily) :
  parse_address_family Get parser build_file_options prelude_symbols
    directory registered_target_types union_membership implementation
  = Ok oaf →
  oaf_path oaf = afd_path directory
  ∧ (afd_path directory ≠ "." →
     (∀ family, address_family oaf = Some family →
        namespace family = afd_path directory)
     ∧ ∀ family, ensure_address_family oaf = Ok family →
         namespace family = oaf_path oaf).
Proof.
  intros Hparse.
  destruct (parse_address_family_namespace _ _ _ _ _ _ _ _ _ Hparse)
    as [Hpath Hnamespace].
  split; [done|]. intros _. split; [done|].
  intros family Hensure. rewrite Hpath. apply Hnamespace.
  unfold ensure_address_family in Hensure.
  destruct (address_family oaf); [|done]. by injection Hensure as ->.
Qed.

Lemma length_process_synthetic address_maps frozen_defaults
    synthetic_address_maps :
  length (process_synthetic address_maps frozen_defaults
                            synthetic_address_maps)
  = length synthetic_address_maps.
Proof.
  unfold process_synthetic. revert synthetic_address_maps.
  induction address_maps as [|am ams IH]; intros synthetic; simpl; [done|].
  rewrite IH. unfold process_synthetic_for. by rewrite length_fmap.
Qed.

(** X9. When at least one declaration file was parsed, the snapshot holds
    the parsed maps followed by as many synthetic maps as the synthetic
    source returned, and each of them is the result of [apply_defaults]
    against the frozen defaults the snapshot publishes. *)
Theorem build_address_family_applies_defaults_with_files
    (parser : Parser) (prelude_symbols : BuildFilePreludeSymbols)
    (directory : AddressFamilyDir)
    (registered_target_types : RegisteredTargetTypes)
    (union_membership : UnionMembership)
    (implementation : MaybeBuildFileDependencyRulesImplementation)
    (digest_contents : list FileContent)
    (synthetic_address_maps : list AddressMap) (inherited : Inherited)
    (oaf : OptionalAddressFamily) :
  digest_contents ≠ [] →
  build_address_family parser prelude_symbols directory
    registered_target_types union_membership implementation
    digest_contents synthetic_address_maps inherited = Ok oaf →
  ∃ family parsed synthetic,
    address_family oaf = Some family
    ∧ address_maps family = parsed ++ synthetic
    ∧ length parsed = length digest_contents
    ∧ length synthetic = length synthetic_address_maps
    ∧ Forall (λ s, ∃ before, s = apply_defaults before (defaults family))
             synthetic.
Proof.
  intros Hfiles (parsed & states & Hparse & ->)%build_address_family_Ok.
  eexists _, parsed, _. split; [done|]. split; [done|].
  assert (length parsed = length digest_contents) as Hlen.
  { clear Hfiles. revert Hparse. generalize (initial_states directory
      registered_target_types union_membership implementation inherited).
    revert parsed. induction digest_contents as [|fc rest IH];
      intros parsed st; simpl.
    - by intros [= <- <-].
    - destruct (decode (fc_content fc)) as [e|text]; simpl; [done|].
      destruct (AddressMap_parse _ _ _ _ _) as [e|[am st1]]; simpl; [done|].
      destruct (parse_files parser prelude_symbols rest st1)
        as [[maps st2]|] eqn:Hrest; simpl; [|done].
      intros [= <- <-]. simpl. by rewrite (IH _ _ Hrest). }
  split; [done|]. split; [apply length_process_synthetic|].
  simpl. apply process_synthetic_applies_defaults.
  intros ->. by destruct digest_contents.
Qed.
End rules_more.

(** ** Further properties of the engine and of target lookup *)

Section engine_more.
Context `{Collaborators}.

(** X6. A failure above breaks everything below: when the engine fails for
    an ancestor of a directory that has declarations (a file of the
    ancestor does not parse, or two of its targets share a name), it fails
    for the directory too, for the optional snapshot and for the snapshot
    that [ensure_address_family] demands. *)
Theorem broken_ancestor_breaks_descendants (session : Session)
    (directory parent : AddressFamilyDir) :
  has_declarations (s_build_file_options session) directory →
  parent ∈ parent_requests directory →
  raises (get_optional_address_family session parent) →
  raises (get_optional_address_family session directory)
  ∧ raises (get_address_family session directory).
Proof.
  intros Hdecl Hparent Hraises.
  assert (raises (get_optional_address_family session directory)) as Hdir.
  { rewrite get_optional_address_family_unfold.
    by eapply parse_address_family_ancestor_failure. }
  split; [done|]. unfold get_address_family.
  by destruct (get_optional_address_family session directory).
Qed.

Lemma last_reverse_seq (n : nat) :
  last (reverse (seq 0 (S n))) = Some 0.
Proof.
  change (seq 0 (S n)) with (0 :: seq 1 n).
  rewrite reverse_cons. apply last_snoc.
Qed.

(** X7. The ancestors [parse_address_family] asks for: one for each part
    of the directory's path; each of them has fewer ancestors than the
    directory, so the nesting of requests ends; and for a relative path the
    last one asked for, the root of the repository, is written [.]. *)
Theorem ancestor_requests_chain (directory : AddressFamilyDir) :
  length (parent_requests directory)
  = length (pp_parts (PurePath_of (afd_path directory)))
  ∧ (∀ parent, parent ∈ parent_requests directory →
       length (parent_requests parent) < length (parent_requests directory))
  ∧ (leading_slashes (afd_path directory) = 0 →
     parent_requests directory ≠ [] →
     last (parent_requests directory) = Some (mkAddressFamilyDir ".")).
Proof.
  split; [|split].
  - unfold parent_requests, PurePath_parents.
    by rewrite !length_fmap, length_reverse, length_seq.
  - intros parent. apply parent_requests_shrink.
  - intros Hrelative Hnonempty.
    unfold parent_requests, PurePath_parents in *.
    unfold PurePath_of in *. simpl in *. rewrite Hrelative in *.
    destruct (filter _ (split_on slash (afd_path directory)))
      as [|part parts]; [done|].
    rewrite !fmap_last.
    change (length (part :: parts)) with (S (length parts)).
    by rewrite last_reverse_seq.
Qed.

Lemma no_declarations_empty_marker (session : Session)
    (directory : AddressFamilyDir) :
  ¬ has_declarations (s_build_file_options session) directory →
  get_optional_address_family session directory
  = Ok (mkOptionalAddressFamily (afd_path directory) None).
Proof.
  intros Hnone. rewrite get_optional_address_family_unfold.
  unfold parse_address_family, has_declarations in *.
  destruct (get_digest_contents _); [|destruct Hnone; by left].
  destruct (get_synthetic_address_maps _); [done|].
  destruct Hnone; by right.
Qed.

(** X15. Looking a target up in a directory that has no declaration file
    and no synthetic map raises the [ResolveError] of
    [ensure_address_family], which names the directory and has no
    suggestion list: through [find_build_file] for any identifier, through
    [find_target_adaptor] for one that is not a generated target. *)
Theorem lookup_in_directory_without_declarations (session : Session)
    (address : Address) (origin : string) :
  ¬ has_declarations (s_build_file_options session)
      (mkAddressFamilyDir (spec_path address)) →
  find_build_file (get_address_family session)
    (mkBuildFileAddressRequest address origin)
  = Raise (EResolve (ResolveError_msg
             ("Directory '" +:+ spec_path address
                +:+ "' does not contain any BUILD files.")))
  ∧ (is_generated_target address = false →
     find_target_adaptor (get_address_family session)
       (mkTargetAdaptorRequest address origin)
     = Raise (EResolve (ResolveError_msg
                ("Directory '" +:+ spec_path address
                   +:+ "' does not contain any BUILD files.")))).
Proof.
  intros Hnone.
  assert (get_address_family session (mkAddressFamilyDir (spec_path address))
          = Raise (EResolve (ResolveError_msg
                     ("Directory '" +:+ spec_path address
                        +:+ "' does not contain any BUILD files."))))
    as Hfamily.
  { unfold get_address_family.
    by rewrite (no_declarations_empty_marker _ _ Hnone). }
  split.
  - unfold find_build_file. simpl. by rewrite Hfamily.
  - intros Hgen. unfold find_target_adaptor. simpl.
    by rewrite Hgen, Hfamily.
Qed.

Lemma get_target_adaptor_Some (family : AddressFamily) (address : Address)
    (target_adaptor : TargetAdaptor) :
  get_target_adaptor family address = Some target_adaptor →
  ∃ path, (target_name address, (path, target_adaptor))
          ∈ declared (address_maps family).
Proof.
  unfold get_target_adaptor.
  destruct (list_to_map _ !! _) as [[path t]|] eqn:Hlookup; [|done].
  intros [= <-]. exists path. by apply elem_of_list_to_map_2.
Qed.

Lemma get_target_adaptor_None (family : AddressFamily) (address : Address) :
  get_target_adaptor family address = None →
  target_name address ∉ target_names family.
Proof.
  unfold get_target_adaptor, target_names.
  destruct (list_to_map _ !! _) eqn:Hlookup; [done|]. intros _.
  by apply not_elem_of_list_to_map.
Qed.

(** X13. [_get_target_adaptor] returns a record only if the snapshot
    declares it under the identifier's target name, and when it raises, it
    raises the [did_you_mean] error for that identifier whose known names
    are the snapshot's and do not include the name that was asked for. *)
Theorem _get_target_adaptor_sound (address : Address)
    (family : AddressFamily) (origin : string) :
  (∀ target_adaptor,
     _get_target_adaptor address family origin = Ok target_adaptor →
     ∃ path, (target_name address, (path, target_adaptor))
             ∈ declared (address_maps family))
  ∧ (∀ err,
       _get_target_adaptor address family origin = Raise err →
       err = EResolve (ResolveError_did_you_mean
                         address origin (target_names family)
                         (namespace family))
       ∧ target_name address ∉ target_names family).
Proof.
  unfold _get_target_adaptor.
  destruct (get_target_adaptor family address) as [t|] eqn:Hlookup; split.
  - intros ? [= <-]. by apply get_target_adaptor_Some.
  - done.
  - done.
  - intros err [= <-]. split; [done|]. by apply get_target_adaptor_None.
Qed.

(** X14. For an address without parameters, the [BuildFileAddress] that
    [find_build_file] returns is for the address of the request, generated
    or not, and its path is the path of the map that declares the target
    name of the address in the snapshot of the address's directory. *)
Theorem find_build_file_keeps_address
    (Get : AddressFamilyDir → result AddressFamily)
    (request : BuildFileAddressRequest) (bfa : BuildFileAddress) :
  parameters (bfar_address request) = [] →
  find_build_file Get request = Ok bfa →
  bfa_address bfa = bfar_address request
  ∧ ∃ family target_adaptor,
      Get (mkAddressFamilyDir (spec_path (bfar_address request))) = Ok family
      ∧ (target_name (bfar_address request), (rel_path bfa, target_adaptor))
        ∈ declared (address_maps family).
Proof.
  intros _. unfold find_build_file. simpl.
  destruct (Get _) as [family|]; simpl; [|done].
  destruct (get_target_adaptor family _) as [declared_adaptor|]; [|done].
  destruct (List.find _ _) as [found|] eqn:Hfind; simpl; [|done].
  apply find_some in Hfind as [Hin Heq].
  apply bool_decide_eq_true in Heq.
  apply list_elem_of_In, list_elem_of_fmap in Hin
    as ([name [path t]] & -> & Hdecl). simpl in *.
  assert (name = target_name (bfar_address request)) as ->.
  { rewrite <-(target_name_of_owner (bfar_address request)).
    by rewrite <-Heq. }
  intros [= <-]. split.
  - unfold maybe_convert_to_target_generator in Heq.
    by destruct (is_generated_target (bfar_address request)).
  - exists family, t. split; [done|].
    by destruct (is_generated_target (bfar_address request)).
Qed.
End engine_more.

(** ** Further properties of the dependency-rule evaluator *)

Section evaluator_more.
Context `{Collaborators}.

Lemma mapM_Raise_inv {A B} (f : A → result B) (l : list A) (err : PyError) :
  mapM f l = Raise err → ∃ x, x ∈ l ∧ f x = Raise err.
Proof.
  induction l as [|x l IH]; simpl; [done|].
  destruct (f x) as [y|e] eqn:Hx; simpl.
  - destruct (mapM f l) as [k|e]; simpl; [done|].
    intros [= <-]. destruct IH as (x' & Hin & Hx'); [done|].
    exists x'. split; [by right|done].
  - intros [= <-]. exists x. split; [left|done].
Qed.

Lemma families_by_namespace_keeps (families : gmap string AddressFamily)
    (address_families : list AddressFamily) (key : string) :
  is_Some (families !! key) →
  is_Some (foldl (λ families family, <[namespace family := family]> families)
                 families address_families !! key).
Proof.
  revert families.
  induction address_families as [|family rest IH]; intros families Hsome;
    simpl; [done|].
  apply IH. rewrite lookup_insert_is_Some.
  destruct (decide (namespace family = key)); auto.
Qed.

Lemma families_by_namespace_member (address_families : list AddressFamily)
    (family : AddressFamily) :
  family ∈ address_families →
  is_Some (families_by_namespace address_families !! namespace family).
Proof.
  unfold families_by_namespace. generalize (∅ : gmap string AddressFamily).
  induction address_families as [|family' rest IH]; intros families Hin;
    [by apply elem_of_nil in Hin|].
  simpl. apply elem_of_cons in Hin as [->|Hin].
  - apply families_by_namespace_keeps. rewrite lookup_insert_eq. by eexists.
  - by apply IH.
Qed.

Lemma families_by_namespace_from (address_families : list AddressFamily)
    (key : string) (family : AddressFamily) :
  families_by_namespace address_families !! key = Some family →
  family ∈ address_families ∧ namespace family = key.
Proof.
  unfold families_by_namespace.
  assert (∀ families : gmap string AddressFamily,
            foldl (λ families family, <[namespace family := family]> families)
                  families address_families !! key = Some family →
            (family ∈ address_families ∧ namespace family = key)
            ∨ families !! key = Some family) as Hfold.
  { induction address_families as [|family' rest IH]; intros families;
      simpl; [by right|].
    intros [[Hin Hkey]|Hlookup]%IH.
    - left. split; [by right|done].
    - destruct (decide (namespace family' = key)) as [Hkey|Hkey].
      + rewrite Hkey, lookup_insert_eq in Hlookup.
        injection Hlookup as ->. left. split; [left|done].
      + rewrite lookup_insert_ne in Hlookup by done. by right. }
  intros [?|Hempty]%Hfold; [done|]. by rewrite lookup_empty in Hempty.
Qed.

(** The dictionary of the evaluator, under the engine's invariant that a
    snapshot is filed under the directory it was asked for: every requested
    path is a key, and the family under a key is the engine's answer for
    that path. *)
Lemma families_by_namespace_lookup
    (Get : AddressFamilyDir → result AddressFamily)
    (paths : list string) (address_families : list AddressFamily) :
  (∀ d family, Get d = Ok family → namespace family = afd_path d) →
  mapM Get (map mkAddressFamilyDir paths) = Ok address_families →
  (∀ path, path ∈ paths →
     is_Some (families_by_namespace address_families !! path))
  ∧ (∀ key family,
       families_by_namespace address_families !! key = Some family →
       Get (mkAddressFamilyDir key) = Ok family).
Proof.
  intros Hns Hget. apply mapM_Ok in Hget. split.
  - intros path Hpath.
    apply (list_elem_of_fmap_2 mkAddressFamilyDir) in Hpath.
    apply list_elem_of_lookup in Hpath as [i Hi].
    destruct (Forall2_lookup_l _ _ _ _ _ Hget Hi) as (family & Hf & Hfamily).
    rewrite <-(Hns _ _ Hfamily : namespace family = path).
    apply families_by_namespace_member.
    apply list_elem_of_lookup. by exists i.
  - intros key family [Hin <-]%families_by_namespace_from.
    apply list_elem_of_lookup in Hin as [i Hi].
    destruct (Forall2_lookup_r _ _ _ _ _ Hget Hi) as (d & Hd & Hfamily).
    rewrite (Hns _ _ Hfamily). by destruct d.
Qed.

Lemma check_dependencies_Ok (cls : BuildFileDependencyRulesClass)
    (request : DependenciesRuleActionRequest)
    (families : gmap string AddressFamily)
    (origin_family : AddressFamily) (origin_target : TargetAdaptor)
    (dependencies : list Address)
    (initial rules : gmap Address DependencyRuleAction) :
  check_dependencies cls request families origin_family origin_target
                     dependencies initial = Ok rules →
  (∀ d, d ∈ dependencies →
     ∃ family target_adaptor,
       families !! spec_path d = Some family
       ∧ get_target_adaptor family (maybe_convert_to_target_generator d)
         = Some target_adaptor
       ∧ rules !! d
         = Some (check_dependency_rules cls
                   origin_target (namespace origin_family)
                   (dependencies_rules origin_family)
                   target_adaptor (namespace family)
                   (dependents_rules family)))
  ∧ (∀ d, d ∉ dependencies → rules !! d = initial !! d).
Proof.
  revert initial.
  induction dependencies as [|d0 rest IH]; intros initial; simpl.
  - intros [= <-]. split; [|done]. intros d Hd. by apply elem_of_nil in Hd.
  - unfold getitem, _get_target_adaptor.
    destruct (families !! spec_path d0) as [family0|] eqn:Hfamily0;
      simpl; [|done].
    destruct (get_target_adaptor family0 _) as [target0|] eqn:Htarget0;
      simpl; [|done].
    intros [Hin Hout]%IH. split.
    + intros d Hd. destruct (decide (d ∈ rest)) as [Hrest|Hrest];
        [by apply Hin|].
      apply elem_of_cons in Hd as [->|Hd]; [|done].
      exists family0, target0. split; [done|]. split; [done|].
      by rewrite (Hout _ Hrest), lookup_insert_eq.
    + intros d Hd. apply not_elem_of_cons in Hd as [Hne Hrest].
      by rewrite (Hout _ Hrest), lookup_insert_ne.
Qed.

Lemma check_dependencies_Raise (cls : BuildFileDependencyRulesClass)
    (request : DependenciesRuleActionRequest)
    (families : gmap string AddressFamily)
    (origin_family : AddressFamily) (origin_target : TargetAdaptor)
    (dependencies : list Address)
    (initial : gmap Address DependencyRuleAction) (err : PyError) :
  (∀ d, d ∈ dependencies → is_Some (families !! spec_path d)) →
  check_dependencies cls request families origin_family origin_target
                     dependencies initial = Raise err →
  ∃ d family,
    d ∈ dependencies
    ∧ families !! spec_path d = Some family
    ∧ err = EResolve (ResolveError_did_you_mean
                        (maybe_convert_to_target_generator d)
                        (drar_description_of_origin request +:+ " on "
                           +:+ Address_str d)
                        (target_names family) (namespace family))
    ∧ target_name d ∉ target_names family.
Proof.
  revert initial.
  induction dependencies as [|d0 rest IH]; intros initial Hkeys; simpl;
    [done|].
  unfold getitem, _get_target_adaptor.
  destruct (Hkeys d0) as [family0 Hfamily0]; [left|]. rewrite Hfamily0.
  simpl.
  destruct (get_target_adaptor family0 _) as [target0|] eqn:Htarget0; simpl.
  - intros (d & family & Hd & Hrest)%IH.
    + exists d, family. split; [by right|done].
    + intros d Hd. apply Hkeys. by right.
  - intros [= <-]. exists d0, family0. split; [left|].
    split; [done|]. split; [done|].
    apply get_target_adaptor_None in Htarget0.
    by rewrite target_name_of_owner in Htarget0.
Qed.

(** X11. With a rule engine installed and an engine that files each
    snapshot under its directory, a successful
    [get_dependencies_rule_action] is for the address of the request and
    holds an action for each dependency of the request and for nothing
    else; the action of a dependency is what [check_dependency_rules] gives
    for the record of the source with the outgoing rules of its directory
    and the record of the dependency with the incoming rules of its
    directory, both records looked up under their owning target
    generators. *)
Theorem get_dependencies_rule_action_checks_every_dependency
    (Get : AddressFamilyDir → result AddressFamily)
    (request : DependenciesRuleActionRequest)
    (cls : BuildFileDependencyRulesClass) (r : DependenciesRuleAction) :
  (∀ d family, Get d = Ok family → namespace family = afd_path d) →
  get_dependencies_rule_action Get request (mkMaybeRulesImpl (Some cls))
    = Ok r →
  ∃ rules origin_family origin_target,
    r = mkDependenciesRuleAction (drar_address request) rules
    ∧ Get (mkAddressFamilyDir (spec_path (drar_address request)))
      = Ok origin_family
    ∧ get_target_adaptor origin_family
        (maybe_convert_to_target_generator (drar_address request))
      = Some origin_target
    ∧ (∀ d, is_Some (rules !! d) ↔ d ∈ drar_dependencies request)
    ∧ ∀ d, d ∈ drar_dependencies request →
        ∃ family target_adaptor,
          Get (mkAddressFamilyDir (spec_path d)) = Ok family
          ∧ get_target_adaptor family (maybe_convert_to_target_generator d)
            = Some target_adaptor
          ∧ action_for r d
            = Some (check_dependency_rules cls
                      origin_target (namespace origin_family)
                      (dependencies_rules origin_family)
                      target_adaptor (namespace family)
                      (dependents_rules family)).
Proof.
  intros Hns. unfold get_dependencies_rule_action. simpl.
  destruct (mapM Get _) as [address_families|] eqn:Hget; simpl; [|done].
  destruct (families_by_namespace_lookup Get _ _ Hns Hget)
    as [_ Hfrom].
  unfold getitem at 1.
  destruct (families_by_namespace address_families !! _)
    as [origin_family|] eqn:Horigin; simpl; [|done].
  unfold _get_target_adaptor at 1.
  destruct (get_target_adaptor origin_family _) as [origin_target|]
    eqn:Htarget; simpl; [|done].
  destruct (check_dependencies _ _ _ _ _ _ _) as [rules|] eqn:Hcheck;
    simpl; [|done].
  intros [= <-]. apply check_dependencies_Ok in Hcheck as [Hin Hout].
  exists rules, origin_family, origin_target.
  split; [done|]. split; [by apply Hfrom|]. split; [done|]. split.
  - intros d. split.
    + intros Hsome. destruct (decide (d ∈ drar_dependencies request));
        [done|].
      rewrite (Hout d), lookup_empty in Hsome by done.
      by destruct Hsome.
    + intros (family & t & _ & _ & ->)%Hin. by eexists.
  - intros d (family & t & Hfamily & Ht & Hrule)%Hin.
    exists family, t. split; [by apply Hfrom|]. by split.
Qed.

(** X12. With a rule engine installed and an engine that files each
    snapshot under its directory, [get_dependencies_rule_action] fails only
    in two ways: the engine failed for the directory of the source or of a
    dependency, and that failure is raised; or the target name of the
    source or of a dependency is not declared in the snapshot of its
    directory, and the [did_you_mean] error with that snapshot's names is
    raised. In particular the dictionary of families is never missing a
    key. *)
Theorem get_dependencies_rule_action_failures
    (Get : AddressFamilyDir → result AddressFamily)
    (request : DependenciesRuleActionRequest)
    (cls : BuildFileDependencyRulesClass) (err : PyError) :
  (∀ d family, Get d = Ok family → namespace family = afd_path d) →
  get_dependencies_rule_action Get request (mkMaybeRulesImpl (Some cls))
    = Raise err →
  (∃ a, a ∈ request_addresses request
        ∧ Get (mkAddressFamilyDir (spec_path a)) = Raise err)
  ∨ (∃ a family origin,
       a ∈ request_addresses request
       ∧ Get (mkAddressFamilyDir (spec_path a)) = Ok family
       ∧ (target_name a ∉ target_names family)
       ∧ err = EResolve (ResolveError_did_you_mean
                           (maybe_convert_to_target_generator a) origin
                           (target_names family) (namespace family))).
Proof.
  intros Hns. unfold get_dependencies_rule_action, request_addresses.
  cbn [build_file_dependency_rules_class].
  set (spec_paths := remove_dups _).
  destruct (mapM Get _) as [address_families|] eqn:Hget;
    cbn [mbind result_bind].
  - destruct (families_by_namespace_lookup Get _ _ Hns Hget)
      as [Hkeys Hfrom]. unfold spec_paths in *.
    assert (∀ a, a ∈ drar_address request :: drar_dependencies request →
              is_Some (families_by_namespace address_families
                         !! spec_path a)) as Hkey.
    { intros a Ha. apply Hkeys, elem_of_remove_dups.
      apply (list_elem_of_fmap_2 spec_path _ a Ha). }
    unfold getitem at 1.
    destruct (Hkey (drar_address request)) as [origin_family Horigin];
      [left|]. rewrite Horigin. simpl.
    unfold _get_target_adaptor at 1.
    destruct (get_target_adaptor origin_family _) as [origin_target|]
      eqn:Htarget; simpl.
    + destruct (check_dependencies _ _ _ _ _ _ _) as [rules|] eqn:Hcheck;
        simpl; [done|].
      intros [= <-].
      apply check_dependencies_Raise in Hcheck
        as (d & family & Hd & Hfamily & -> & Hname).
      * right. eexists d, family, _. split; [by right|].
        split; [by apply Hfrom|]. by split.
      * intros d Hd. apply Hkey. by right.
    + intros [= <-]. right.
      eexists (drar_address request), origin_family, _.
      split; [left|]. split; [by apply Hfrom|]. split; [|done].
      apply get_target_adaptor_None in Htarget.
      by rewrite target_name_of_owner in Htarget.
  - intros [= <-]. left. unfold spec_paths in *.
    apply mapM_Raise_inv in Hget as (d & Hd & Hraise).
    apply list_elem_of_fmap in Hd as (path & -> & Hpath).
    apply elem_of_remove_dups, list_elem_of_fmap in Hpath
      as (a & -> & Ha).
    by exists a.
Qed.

(** The engine files each snapshot under the directory it was asked
    for. *)
Lemma get_address_family_namespace (session : Session)
    (directory : AddressFamilyDir) (family : AddressFamily) :
  get_address_family session directory = Ok family →
  namespace family = afd_path directory.
Proof.
  unfold get_address_family.
  destruct (get_optional_address_family session directory) as [oaf|]
    eqn:Hoaf; simpl; [|done].
  rewrite get_optional_address_family_unfold in Hoaf.
  apply parse_address_family_namespace in Hoaf as [_ Hnamespace].
  unfold ensure_address_family.
  destruct (address_family oaf) as [family'|]; [|done].
  intros [= <-]. by apply Hnamespace.
Qed.
End evaluator_more.

(** ** Further properties of what is published and found *)

Section published_more.
Context `{Collaborators}.

(** X16. The defaults a snapshot publishes are those the defaults builder
    holds after the last file of the directory was parsed; a directory
    whose files leave the builder as it was created publishes exactly the
    defaults it inherited. *)
Theorem build_address_family_publishes_builder_defaults
    (parser : Parser) (prelude_symbols : BuildFilePreludeSymbols)
    (directory : AddressFamilyDir)
    (registered_target_types : RegisteredTargetTypes)
    (union_membership : UnionMembership)
    (implementation : MaybeBuildFileDependencyRulesImplementation)
    (digest_contents : list FileContent)
    (synthetic_address_maps : list AddressMap) (inherited : Inherited)
    (oaf : OptionalAddressFamily) :
  build_address_family parser prelude_symbols directory
    registered_target_types union_membership implementation
    digest_contents synthetic_address_maps inherited = Ok oaf →
  ∃ family parsed states,
    address_family oaf = Some family
    ∧ parse_files parser prelude_symbols digest_contents
        (initial_states directory registered_target_types union_membership
                        implementation inherited)
      = Ok (parsed, states)
    ∧ defaults family = dps_defaults (st_defaults states)
    ∧ (st_defaults states
       = st_defaults (initial_states directory registered_target_types
                        union_membership implementation inherited) →
       defaults family = inh_defaults inherited).
Proof.
  intros (parsed & states & Hparse & ->)%build_address_family_Ok.
  eexists _, parsed, states. split; [done|]. split; [done|].
  split; [done|]. simpl. by intros ->.
Qed.

(** X17. A record [find_target_adaptor] returns is the one the snapshot of
    the address's directory declares under the target name of the address,
    and the address is not a generated target. *)
Theorem find_target_adaptor_sound
    (Get : AddressFamilyDir → result AddressFamily)
    (request : TargetAdaptorRequest) (target_adaptor : TargetAdaptor) :
  find_target_adaptor Get request = Ok target_adaptor →
  is_generated_target (tar_address request) = false
  ∧ ∃ family path,
      Get (mkAddressFamilyDir (spec_path (tar_address request))) = Ok family
      ∧ (target_name (tar_address request), (path, target_adaptor))
        ∈ declared (address_maps family).
Proof.
  unfold find_target_adaptor. simpl.
  destruct (is_generated_target (tar_address request)); [done|].
  destruct (Get _) as [family|]; simpl; [|done].
  unfold _get_target_adaptor.
  destruct (get_target_adaptor family _) as [t|] eqn:Hlookup; [|done].
  intros [= <-]. split; [done|].
  destruct (get_target_adaptor_Some _ _ _ Hlookup) as [path Hdecl].
  by exists family, path.
Qed.
End published_more.

(** ** The rules on the small workspace *)

Import Demo.

(** The testable properties of the specification on the workspace: [a]
    declares [timeout=10]; [a/b] has no declaration file and resolves to the
    empty marker; [a/b/c] declares a target and no default, and publishes
    [timeout=10]. *)
Example transparency_on_workspace :
  published_defaults "a" = Ok (Some [("timeout", "10")])
  ∧ published_defaults "a/b" = Ok None
  ∧ published_defaults "a/b/c" = Ok (Some [("timeout", "10")])
  ∧ parent_requests (dir "a/b/c") = [dir "a/b"; dir "a"; dir "."].
Proof. by vm_compute. Qed.

Example uniqueness_on_workspace :
  published_targets "dup" = Raise (DuplicateNameError "lib")
  ∧ published_targets "a/mixed" = Raise (DuplicateNameError "lib")
  ∧ published_targets "ok"
    = Ok (Some [("lib", mkTargetAdaptor "target" []);
                ("lib2", mkTargetAdaptor "target" [])]).
Proof. by vm_compute. Qed.

Example unknown_reference_on_workspace :
  maybe_resolve_address (mkAddressInput "no/such/path" (Some "tgt") "tests")
  = Ok (mkMaybeAddress
          (inr (ResolveError_msg
                  (nl +:+ indent16
                      +:+ "The file or directory 'no/such/path' does not exist on disk in"
                      +:+ nl +:+ indent16
                      +:+ "the workspace, so the address 'no/such/path:tgt' from tests"
                      +:+ nl +:+ indent16 +:+ "cannot be resolved."
                      +:+ nl +:+ indent16)))).
Proof. by vm_compute. Qed.

(** The ancestors of [a/b/c] answer as [parents_of_a_b_c] lists them. *)
Lemma parents_of_a_b_c_answers :
  Forall2 (λ parent maybe_parent,
             get_optional_address_family session parent = Ok maybe_parent)
          (parent_requests (dir "a/b/c")) parents_of_a_b_c.
Proof.
  assert (parent_requests (dir "a/b/c") = [dir "a/b"; dir "a"; dir "."])
    as -> by (vm_compute; reflexivity).
  repeat (constructor; [vm_compute; reflexivity|]). constructor.
Defined.

Lemma parse_address_family_seed_witness :
  has_declarations (s_build_file_options session) (dir "a/b/c")
  ∧ ∃ inherited,
      seeded_as_specified parents_of_a_b_c inherited
      ∧ parse_address_family (get_optional_address_family session)
          (s_parser session) (s_build_file_options session)
          (s_prelude_symbols session) (dir "a/b/c")
          (s_registered_target_types session) (s_union_membership session)
          (s_implementation session)
        = build_address_family (s_parser session) (s_prelude_symbols session)
            (dir "a/b/c") (s_registered_target_types session)
            (s_union_membership session) (s_implementation session)
            (get_digest_contents
               (build_file_globs (s_build_file_options session)
                                 (dir "a/b/c")))
            (get_synthetic_address_maps "a/b/c")
            inherited.
Proof.
  assert (has_declarations (s_build_file_options session) (dir "a/b/c"))
    as Hdecl by (left; vm_compute; discriminate).
  split; [exact Hdecl|].
  exact (parse_address_family_seed _ _ _ _ _ _ _ _ _ Hdecl
           parents_of_a_b_c_answers).
Defined.

Lemma lookup_of_absent_name_suggests_witness :
  let address := mkAddress "a" "nolib" None [] in
  _get_target_adaptor address family_a "tests"
    = Raise (EResolve (ResolveError_did_you_mean address "tests" ["lib"] "a"))
  ∧ find_build_file (get_address_family session)
      (mkBuildFileAddressRequest address "tests")
    = Raise (EResolve (ResolveError_did_you_mean address "tests" ["lib"] "a"))
  ∧ (is_generated_target address = false →
     find_target_adaptor (get_address_family session)
       (mkTargetAdaptorRequest address "tests")
     = Raise (EResolve
                (ResolveError_did_you_mean address "tests" ["lib"] "a"))).
Proof.
  apply (lookup_of_absent_name_suggests
           (get_address_family session) family_a
           (mkAddress "a" "nolib" None []) "tests").
  - apply (bool_decide_unpack _). vm_compute. exact I.
  - vm_compute. reflexivity.
Defined.

(** C6 as stated fails for a generated-target identifier: its target name
    is absent from the snapshot of its directory, and [find_target_adaptor]
    raises the assertion error, which is not a [ResolveError] and carries
    no suggestion. *)
Lemma find_target_adaptor_generated_absent_name :
  let address := mkAddress "a" "nolib" (Some "gen") [] in
  let request := mkTargetAdaptorRequest address "tests" in
  get_address_family session (mkAddressFamilyDir (spec_path address))
    = Ok family_a
  ∧ (target_name address ∉ target_names family_a)
  ∧ find_target_adaptor (get_address_family session) request
    = Raise (AssertionError
               "Generated targets are not defined in BUILD files, and so do not have TargetAdaptors: TargetAdaptorRequest(a:nolib)")
  ∧ ∀ e : ResolveError,
      find_target_adaptor (get_address_family session) request
      ≠ Raise (EResolve e).
Proof.
  intros address request. split; [|split; [|split]].
  - vm_compute. reflexivity.
  - apply (bool_decide_unpack _). vm_compute. exact I.
  - vm_compute. reflexivity.
  - intros e. unfold find_target_adaptor. simpl. discriminate.
Qed.

Lemma find_target_adaptor_rejects_generated_witness :
  let request :=
    mkTargetAdaptorRequest (mkAddress "a" "lib" (Some "gen") []) "tests" in
  find_target_adaptor (get_address_family session) request
    = Raise (AssertionError
               ("Generated targets are not defined in BUILD files, and so do not have TargetAdaptors: "
                  +:+ TargetAdaptorRequest_repr request))
  ∧ find_build_file (get_address_family session)
      (mkBuildFileAddressRequest (tar_address request)
                                 (tar_description_of_origin request))
    = (λ bfa, mkBuildFileAddress (tar_address request) (rel_path bfa))
      <$> find_build_file (get_address_family session)
            (mkBuildFileAddressRequest
               (maybe_convert_to_target_generator (tar_address request))
               (tar_description_of_origin request)).
Proof.
  apply (find_target_adaptor_rejects_generated
           (get_address_family session)
           (mkTargetAdaptorRequest (mkAddress "a" "lib" (Some "gen") [])
                                   "tests")).
  reflexivity.
Defined.

Example find_build_file_of_generated_on_workspace :
  find_build_file (get_address_family session)
    (mkBuildFileAddressRequest (mkAddress "a" "lib" (Some "gen") []) "tests")
  = Ok (mkBuildFileAddress (mkAddress "a" "lib" (Some "gen") []) "a/BUILD").
Proof. by vm_compute. Qed.

Lemma evaluate_preludes_reports_failing_prelude_witness :
  evaluate_preludes
    (mkBuildFileOptions [] [] ["prelude_ok.py"; "prelude_bad.py"]) ()
  = Raise (Exception
             ("Error parsing prelude file " +:+ "prelude_bad.py" +:+ ": "
                +:+ "name 'fail' is not defined"))
  ∧ ∀ prelude_symbols,
      evaluate_preludes
        (mkBuildFileOptions [] [] ["prelude_ok.py"; "prelude_bad.py"]) ()
      ≠ Ok prelude_symbols.
Proof.
  apply (@evaluate_preludes_reports_failing_prelude opaque collaborators
           (mkBuildFileOptions [] [] ["prelude_ok.py"; "prelude_bad.py"]) ()
           [mkFileContent "prelude_ok.py" "x"]
           []
           (mkFileContent "prelude_bad.py" "fail")
           (builtin_symbols (s_parser session) ∪ builtin_errors)
           (<[ "x" := "1" ]> ∅)
           (ThrownException
              (mkRaised "NameError" "name 'fail' is not defined"))).
  - vm_compute. reflexivity.
  - vm_compute. reflexivity.
  - vm_compute. reflexivity.
Defined.

(** C9 as stated fails for a prelude whose code raises [SystemExit]: its
    evaluation raises, and [evaluate_preludes] raises that [SystemExit]
    itself, not an error with the message
    [Error parsing prelude file quit.py: 1]. *)
Lemma evaluate_preludes_system_exit_not_wrapped :
  @exec_prelude_file opaque Broken.collaborators
    (mkFileContent "quit.py" "raise SystemExit(1)")
    ∅ (<[ "y" := "1" ]> ∅)
  = inl (ThrownBaseException (mkRaised "SystemExit" "1"))
  ∧ Broken.preludes_with_exit
    = Raise (Propagated (mkRaised "SystemExit" "1"))
  ∧ Broken.preludes_with_exit
    ≠ Raise (Exception "Error parsing prelude file quit.py: 1").
Proof.
  assert (Broken.preludes_with_exit
          = Raise (Propagated (mkRaised "SystemExit" "1"))) as Hrun
    by (vm_compute; reflexivity).
  split; [vm_compute; reflexivity|]. split; [done|].
  rewrite Hrun. discriminate.
Qed.


(** The ancestors of [a/gen] and what they answer. *)
Lemma parents_of_a_gen_answers :
  Forall2 (λ parent maybe_parent,
             get_optional_address_family session parent = Ok maybe_parent)
          (parent_requests (dir "a/gen"))
          [mkOptionalAddressFamily "a" (Some family_a);
           mkOptionalAddressFamily "." None].
Proof.
  assert (parent_requests (dir "a/gen") = [dir "a"; dir "."])
    as -> by (vm_compute; reflexivity).
  repeat (constructor; [vm_compute; reflexivity|]). constructor.
Defined.

(** [a/gen] has one synthetic map and no declaration file; its ancestor [a]
    declares [timeout=10]. The snapshot publishes the synthetic target
    without the default that the hook would have given it, while in
    [a/both], which also has a declaration file, the hook has run. *)
Lemma synthetic_only_directory_skips_apply_defaults_witness :
  parse_address_family (get_optional_address_family session)
    (s_parser session) (s_build_file_options session)
    (s_prelude_symbols session) (dir "a/gen")
    (s_registered_target_types session) (s_union_membership session)
    (s_implementation session)
  = Ok (mkOptionalAddressFamily "a/gen"
          (Some (mkAddressFamily "a/gen"
                   [mkAddressMap "a/gen/<synthetic>"
                      [("synth", mkTargetAdaptor "target" [])]]
                   {[ "target" := {[ "timeout" := "10" ]} ]} None None)))
  ∧ fill_defaults
      (mkAddressMap "a/gen/<synthetic>"
                    [("synth", mkTargetAdaptor "target" [])])
      {[ "target" := {[ "timeout" := "10" ]} ]}
    = mkAddressMap "a/gen/<synthetic>"
        [("synth", mkTargetAdaptor "target" [("timeout", "10")])]
  ∧ published_targets "a/both"
    = Ok (Some [("tool", mkTargetAdaptor "target" []);
                ("synth", mkTargetAdaptor "target" [("timeout", "10")])]).
Proof.
  split; [|by vm_compute].
  rewrite (synthetic_only_directory_skips_apply_defaults
             (get_optional_address_family session)
             (s_parser session) (s_build_file_options session)
             (s_prelude_symbols session) (dir "a/gen")
             (s_registered_target_types session) (s_union_membership session)
             (s_implementation session)
             [mkOptionalAddressFamily "a" (Some family_a);
              mkOptionalAddressFamily "." None]).
  - vm_compute. reflexivity.
  - vm_compute. reflexivity.
  - vm_compute. discriminate.
  - exact parents_of_a_gen_answers.
Defined.

Lemma AddressFamily_create_unique_names_witness :
  let lib := mkAddressMap "dup/BUILD" [("lib", mkTargetAdaptor "target" [])] in
  let lib' :=
    mkAddressMap "dup/BUILD.extra" [("lib", mkTargetAdaptor "target" [])] in
  let lib2 :=
    mkAddressMap "ok/BUILD.extra" [("lib2", mkTargetAdaptor "target" [])] in
  (∃ name,
     AddressFamily_create "dup" [lib'; lib] ∅ None None
     = Raise (DuplicateNameError name)
     ∧ name ∈ (declared [lib; lib']).*1)
  ∧ (∃ family,
       AddressFamily_create "ok" [lib; lib2] ∅ None None = Ok family
       ∧ address_maps family = [lib; lib2]
       ∧ ∀ m name t address,
           m ∈ [lib; lib2] → (name, t) ∈ name_to_target_adaptor m →
           target_name address = name →
           get_target_adaptor family address = Some t
           ∧ name ∈ target_names family).
Proof.
  intros lib lib' lib2. split.
  - apply (proj1 (AddressFamily_create_unique_names
                    "dup" [lib; lib'] ∅ None None)).
    + intros Hnd. vm_compute in Hnd.
      apply NoDup_cons in Hnd as [Hin _]. apply Hin. left.
    + apply Permutation_swap.
  - apply (proj2 (AddressFamily_create_unique_names
                    "ok" [lib; lib2] ∅ None None)).
    + apply (bool_decide_unpack _). vm_compute. exact I.
    + reflexivity.
Defined.

(** ** The further properties on the two workspaces *)

Lemma evaluate_preludes_hides_builtins_witness :
  ∃ prelude_symbols,
    evaluate_preludes (mkBuildFileOptions [] [] ["prelude_ok.py"])
                      (s_parser session) = Ok prelude_symbols
    ∧ symbols prelude_symbols !! "__builtins__" = None.
Proof.
  destruct (evaluate_preludes (mkBuildFileOptions [] [] ["prelude_ok.py"])
                              (s_parser session))
    as [prelude_symbols|] eqn:Hrun; [|vm_compute in Hrun; discriminate].
  exists prelude_symbols. split; [done|].
  exact (evaluate_preludes_hides_builtins _ _ _ Hrun).
Defined.

Lemma evaluate_preludes_import_error_witness :
  Broken.preludes
  = Raise (Propagated (mkRaised "ParseError" "Import used in imp.py")).
Proof.
  apply (@evaluate_preludes_import_error opaque Broken.collaborators
           (mkBuildFileOptions [] [] ["fine.py"; "imp.py"]) ()
           [mkFileContent "fine.py" "y"] []
           (mkFileContent "imp.py" "import os")
           ∅ (<[ "y" := "1" ]> ∅) "import os"
           (∅, <[ "import os" := "1" ]> (<[ "y" := "1" ]> ∅))
           (mkRaised "ParseError" "Import used in imp.py")).
  - vm_compute. reflexivity.
  - vm_compute. reflexivity.
  - vm_compute. reflexivity.
  - vm_compute. reflexivity.
Defined.

Lemma build_address_family_atomic_failure_witness :
  @build_address_family opaque Broken.collaborators
    () (s_prelude_symbols Broken.session) (dir "x") () ()
    (s_implementation Broken.session)
    ([mkFileContent "x/BUILD" "target a"]
       ++ mkFileContent "x/BUILD.extra" "oops" :: [])
    [] empty_seed
  = Raise (Propagated
             (mkRaised "ParseError" "bad statement in x/BUILD.extra")).
Proof.
  apply (@build_address_family_atomic_failure opaque Broken.collaborators
           () (s_prelude_symbols Broken.session) (dir "x") () ()
           (s_implementation Broken.session)
           [mkFileContent "x/BUILD" "target a"] []
           (mkFileContent "x/BUILD.extra" "oops") [] empty_seed
           [mkAddressMap "x/BUILD" [("a", mkTargetAdaptor "target" [])]]
           (@initial_states opaque (dir "x") () ()
              (s_implementation Broken.session) empty_seed)).
  - vm_compute. reflexivity.
  - right. exists "oops". split; vm_compute; reflexivity.
Defined.

Lemma broken_ancestor_breaks_descendants_witness :
  raises (Broken.resolve (dir "x/y"))
  ∧ raises (@get_address_family opaque Broken.collaborators
              Broken.session (dir "x/y")).
Proof.
  apply (@broken_ancestor_breaks_descendants opaque Broken.collaborators
           Broken.session (dir "x/y") (dir "x")).
  - left. vm_compute. discriminate.
  - assert (parent_requests (dir "x/y") = [dir "x"; dir "."]) as ->
      by (vm_compute; reflexivity).
    left.
  - vm_compute. exact I.
Defined.

Lemma ancestor_requests_chain_witness :
  last (parent_requests (dir "a/b/c")) = Some (mkAddressFamilyDir ".").
Proof.
  apply (proj2 (proj2 (ancestor_requests_chain (dir "a/b/c")))).
  - vm_compute. reflexivity.
  - vm_compute. discriminate.
Defined.

Lemma parse_address_family_answers_for_directory_witness :
  ∃ oaf,
    parse_address_family (get_optional_address_family session)
      (s_parser session) (s_build_file_options session)
      (s_prelude_symbols session) (dir "a")
      (s_registered_target_types session) (s_union_membership session)
      (s_implementation session) = Ok oaf
    ∧ oaf_path oaf = "a"
    ∧ ("a" ≠ "." →
       (∀ family, address_family oaf = Some family → namespace family = "a")
       ∧ ∀ family, ensure_address_family oaf = Ok family →
           namespace family = oaf_path oaf).
Proof.
  destruct (parse_address_family (get_optional_address_family session)
              (s_parser session) (s_build_file_options session)
              (s_prelude_symbols session) (dir "a")
              (s_registered_target_types session)
              (s_union_membership session) (s_implementation session))
    as [oaf|] eqn:Hrun; [|vm_compute in Hrun; discriminate].
  exists oaf. split; [done|].
  exact (parse_address_family_answers_for_directory _ _ _ _ _ _ _ _ _ Hrun).
Defined.

Lemma build_address_family_applies_defaults_with_files_witness :
  ∃ oaf,
    build_address_family (s_parser session) (s_prelude_symbols session)
      (dir "a/both") (s_registered_target_types session)
      (s_union_membership session) (s_implementation session)
      [mkFileContent "a/both/BUILD" "target tool"]
      (synthetic_maps "a/both") (seed_of family_a) = Ok oaf
    ∧ ∃ family parsed synthetic,
        address_family oaf = Some family
        ∧ address_maps family = parsed ++ synthetic
        ∧ length parsed = 1
        ∧ length synthetic = 1
        ∧ Forall (λ s, ∃ before, s = apply_defaults before (defaults family))
                 synthetic.
Proof.
  destruct (build_address_family (s_parser session)
              (s_prelude_symbols session) (dir "a/both")
              (s_registered_target_types session)
              (s_union_membership session) (s_implementation session)
              [mkFileContent "a/both/BUILD" "target tool"]
              (synthetic_maps "a/both") (seed_of family_a))
    as [oaf|] eqn:Hrun; [|vm_compute in Hrun; discriminate].
  exists oaf. split; [done|].
  assert ([mkFileContent "a/both/BUILD" "target tool"] ≠ []) as Hfiles
    by discriminate.
  exact (build_address_family_applies_defaults_with_files
           _ _ _ _ _ _ _ _ _ _ Hfiles Hrun).
Defined.

Lemma parse_files_one_map_per_file_witness :
  ∃ address_maps states,
    parse_files (s_parser session) (s_prelude_symbols session)
      [mkFileContent "ok/BUILD" "target lib";
       mkFileContent "ok/BUILD.extra" "target lib2"]
      (initial_states (dir "ok") (s_registered_target_types session)
                      (s_union_membership session) (s_implementation session)
                      empty_seed)
    = Ok (address_maps, states)
    ∧ length address_maps = 2.
Proof.
  destruct (parse_files (s_parser session) (s_prelude_symbols session)
              [mkFileContent "ok/BUILD" "target lib";
               mkFileContent "ok/BUILD.extra" "target lib2"]
              (initial_states (dir "ok") (s_registered_target_types session)
                      (s_union_membership session) (s_implementation session)
                              empty_seed))
    as [[address_maps states]|] eqn:Hrun; [|vm_compute in Hrun; discriminate].
  exists address_maps, states. split; [done|].
  exact (proj1 (parse_files_one_map_per_file _ _ _ _ _ _ Hrun)).
Defined.

Lemma get_dependencies_rule_action_checks_every_dependency_witness :
  ∃ r,
    get_dependencies_rule_action (get_address_family session) Broken.request
      (mkMaybeRulesImpl (Some Broken.rules_class)) = Ok r
    ∧ action_for r (Broken.lib_of "ok") = Some (DENY "ok is private")
    ∧ action_for r (Broken.lib_of "a") = Some ALLOW
    ∧ action_for r (Broken.lib_of "dup") = None
    ∧ ∃ rules origin_family origin_target,
        r = mkDependenciesRuleAction (drar_address Broken.request) rules
        ∧ get_address_family session
            (mkAddressFamilyDir (spec_path (drar_address Broken.request)))
          = Ok origin_family
        ∧ get_target_adaptor origin_family
            (maybe_convert_to_target_generator (drar_address Broken.request))
          = Some origin_target
        ∧ (∀ d, is_Some (rules !! d) ↔ d ∈ drar_dependencies Broken.request)
        ∧ ∀ d, d ∈ drar_dependencies Broken.request →
            ∃ family target_adaptor,
              get_address_family session
                (mkAddressFamilyDir (spec_path d)) = Ok family
              ∧ get_target_adaptor family
                  (maybe_convert_to_target_generator d)
                = Some target_adaptor
              ∧ action_for r d
                = Some (check_dependency_rules Broken.rules_class
                          origin_target (namespace origin_family)
                          (dependencies_rules origin_family)
                          target_adaptor (namespace family)
                          (dependents_rules family)).
Proof.
  destruct (get_dependencies_rule_action (get_address_family session)
              Broken.request (mkMaybeRulesImpl (Some Broken.rules_class)))
    as [r|] eqn:Hrun; [|vm_compute in Hrun; discriminate].
  exists r.
  assert (Ok r = Ok (mkDependenciesRuleAction (Broken.lib_of "a")
                       (<[ Broken.lib_of "a" := ALLOW ]>
                          (<[ Broken.lib_of "ok" := DENY "ok is private" ]>
                             ∅)))) as Hvalue.
  { rewrite <-Hrun. vm_compute. reflexivity. }
  split; [done|].
  split; [injection Hvalue as ->; vm_compute; reflexivity|].
  split; [injection Hvalue as ->; vm_compute; reflexivity|].
  split; [injection Hvalue as ->; vm_compute; reflexivity|].
  apply (get_dependencies_rule_action_checks_every_dependency
           (get_address_family session) Broken.request Broken.rules_class r);
    [|done].
  intros d family. apply get_address_family_namespace.
Defined.

Lemma get_dependencies_rule_action_failures_witness :
  let err :=
    EResolve (ResolveError_msg
                "Directory 'a/b' does not contain any BUILD files.") in
  get_dependencies_rule_action (get_address_family session)
    Broken.request_into_empty (mkMaybeRulesImpl (Some Broken.rules_class))
  = Raise err
  ∧ ((∃ a, a ∈ request_addresses Broken.request_into_empty
           ∧ get_address_family session
               (mkAddressFamilyDir (spec_path a)) = Raise err)
     ∨ (∃ a family origin,
          a ∈ request_addresses Broken.request_into_empty
          ∧ get_address_family session
              (mkAddressFamilyDir (spec_path a)) = Ok family
          ∧ (target_name a ∉ target_names family)
          ∧ err = EResolve (ResolveError_did_you_mean
                              (maybe_convert_to_target_generator a) origin
                              (target_names family) (namespace family)))).
Proof.
  intros err.
  assert (get_dependencies_rule_action (get_address_family session)
            Broken.request_into_empty
            (mkMaybeRulesImpl (Some Broken.rules_class)) = Raise err)
    as Hrun by (vm_compute; reflexivity).
  split; [done|].
  apply (get_dependencies_rule_action_failures
           (get_address_family session) Broken.request_into_empty
           Broken.rules_class err); [|done].
  intros d family. apply get_address_family_namespace.
Defined.

Lemma find_build_file_keeps_address_witness :
  let request :=
    mkBuildFileAddressRequest (mkAddress "a" "lib" (Some "gen") [])
                              "tests" in
  ∃ bfa,
    find_build_file (get_address_family session) request = Ok bfa
    ∧ rel_path bfa = "a/BUILD"
    ∧ bfa_address bfa = bfar_address request
    ∧ ∃ family target_adaptor,
        get_address_family session
          (mkAddressFamilyDir (spec_path (bfar_address request))) = Ok family
        ∧ (target_name (bfar_address request),
           (rel_path bfa, target_adaptor))
          ∈ declared (address_maps family).
Proof.
  intros request.
  destruct (find_build_file (get_address_family session) request)
    as [bfa|] eqn:Hrun; [|vm_compute in Hrun; discriminate].
  exists bfa. split; [done|]. split.
  - assert (Ok bfa = Ok (mkBuildFileAddress (bfar_address request)
                                              "a/BUILD")) as Hvalue
      by (rewrite <-Hrun; vm_compute; reflexivity).
    by injection Hvalue as ->.
  - apply (find_build_file_keeps_address _ request bfa);
      [reflexivity|exact Hrun].
Defined.

Lemma lookup_in_directory_without_declarations_witness :
  let address := mkAddress "a/b" "lib" None [] in
  find_build_file (get_address_family session)
    (mkBuildFileAddressRequest address "tests")
  = Raise (EResolve (ResolveError_msg
             ("Directory '" +:+ "a/b"
                +:+ "' does not contain any BUILD files.")))
  ∧ (is_generated_target address = false →
     find_target_adaptor (get_address_family session)
       (mkTargetAdaptorRequest address "tests")
     = Raise (EResolve (ResolveError_msg
                ("Directory '" +:+ "a/b"
                   +:+ "' does not contain any BUILD files.")))).
Proof.
  apply (lookup_in_directory_without_declarations session
           (mkAddress "a/b" "lib" None []) "tests").
  intros [Hfiles|Hsynthetic]; [apply Hfiles|apply Hsynthetic];
    vm_compute; reflexivity.
Defined.

Lemma build_address_family_publishes_builder_defaults_witness :
  ∃ oaf,
    build_address_family (s_parser session) (s_prelude_symbols session)
      (dir "a/b/c") (s_registered_target_types session)
      (s_union_membership session) (s_implementation session)
      [mkFileContent "a/b/c/BUILD" "target app"] [] (seed_of family_a)
    = Ok oaf
    ∧ ∃ family parsed states,
        address_family oaf = Some family
        ∧ parse_files (s_parser session) (s_prelude_symbols session)
            [mkFileContent "a/b/c/BUILD" "target app"]
            (initial_states (dir "a/b/c") (s_registered_target_types session)
               (s_union_membership session) (s_implementation session)
               (seed_of family_a))
          = Ok (parsed, states)
        ∧ defaults family = dps_defaults (st_defaults states)
        ∧ (st_defaults states
           = st_defaults
               (initial_states (dir "a/b/c")
                  (s_registered_target_types session)
                  (s_union_membership session) (s_implementation session)
                  (seed_of family_a)) →
           defaults family = inh_defaults (seed_of family_a)).
Proof.
  destruct (build_address_family (s_parser session)
              (s_prelude_symbols session) (dir "a/b/c")
              (s_registered_target_types session)
              (s_union_membership session) (s_implementation session)
              [mkFileContent "a/b/c/BUILD" "target app"] []
              (seed_of family_a))
    as [oaf|] eqn:Hrun; [|vm_compute in Hrun; discriminate].
  exists oaf. split; [done|].
  exact (build_address_family_publishes_builder_defaults
           _ _ _ _ _ _ _ _ _ _ Hrun).
Defined.

Lemma find_target_adaptor_sound_witness :
  let request := mkTargetAdaptorRequest (mkAddress "a" "lib" None [])
                                        "tests" in
  ∃ target_adaptor,
    find_target_adaptor (get_address_family session) request
    = Ok target_adaptor
    ∧ is_generated_target (tar_address request) = false
    ∧ ∃ family path,
        get_address_family session
          (mkAddressFamilyDir (spec_path (tar_address request))) = Ok family
        ∧ (target_name (tar_address request), (path, target_adaptor))
          ∈ declared (address_maps family).
Proof.
  intros request.
  destruct (find_target_adaptor (get_address_family session) request)
    as [target_adaptor|] eqn:Hrun; [|vm_compute in Hrun; discriminate].
  exists target_adaptor. split; [done|].
  exact (find_target_adaptor_sound _ _ _ Hrun).
Defined.
